(** * Ensembler: potentials, stochastic samplers and the EDS system

    A shallow embedding of the parts of the Ensembler toolkit that its
    specification makes claims about:

    - [potentials/OneD.py]: the flat-well, wave, harmonic, exponentially
      coupled and enveloped potentials;
    - [samplers/stochastic.py]: the Metropolis Monte Carlo sampler and the
      two Langevin samplers;
    - [system/eds_system.py]: the setters, the state snapshot and the
      trajectory of the EDS system;
    - [conditions/_conditions.py]: the base class of the conditions.

    Conventions.  A Python float is a rational number ([Q]) where the code only
    compares it (flat well), and a real number ([R]) where the code feeds it
    to [exp], [log], [cos] or [sqrt]; [np.inf] and [np.nan] get constructors
    of their own where the code produces them.  A Python exception is the
    [Raise] branch of [result].  Draws of [np.random] are read from an explicit
    source of random values.  Positions are one-dimensional, as for every
    potential of [OneD.py]. *)

From Stdlib Require Import Reals Lra Lia ZArith QArith List Bool String.
Import ListNotations.

(** ** Python exceptions and fallible results *)

Inductive exn : Type :=
| TypeError (msg : string)
| ValueError (msg : string)
| IndexError (msg : string)
| AttributeError (msg : string).

Inductive result (A : Type) : Type :=
| Ok (a : A)
| Raise (e : exn).

Arguments Ok {A} a.
Arguments Raise {A} e.

Definition bind {A B : Type} (c : result A) (k : A -> result B) : result B :=
  match c with
  | Ok a => k a
  | Raise e => Raise e
  end.

Notation "x <- c ;; k" := (bind c (fun x => k))
  (at level 61, c at next level, right associativity).

Definition is_raise {A : Type} (c : result A) : Prop :=
  match c with
  | Ok _ => False
  | Raise _ => True
  end.

(** An [int] attribute whose default is [np.inf]. *)
Inductive bound : Type :=
| Fin (n : Z)
| Inf.

(** ** The flat-well potential ([OneD.flatwellPotential]) *)

Module FlatWell.
Local Open Scope Q_scope.

(** A scalar or a one-dimensional batch, the two shapes the evaluators of a
    one-dimensional potential are called with. *)
Inductive ndarray (A : Type) : Type :=
| Scalar (a : A)
| Array1 (l : list A).

Arguments Scalar {A} a.
Arguments Array1 {A} l.

(** [np.squeeze]: a batch of one entry becomes a scalar. *)
Definition squeeze {A : Type} (v : ndarray A) : ndarray A :=
  match v with
  | Array1 [a] => Scalar a
  | _ => v
  end.

(** [np.array(v, ndmin=1)], as the list that [for pos in ...] walks. *)
Definition atleast_1d {A : Type} (v : ndarray A) : list A :=
  match v with
  | Scalar a => [a]
  | Array1 l => l
  end.

(** An entry of the force output: a number or [np.inf]. *)
Inductive fvalue : Type :=
| Num (q : Q)
| PosInf.

Record flatwellPotential : Type := mkFlatwell {
  x_min : Q;
  x_max : Q;
  y_max : Q;
  y_min : Q
}.

(** [min(x_range)] and [max(x_range)] of Python, on a non-empty sequence
    [x :: xs]: the first smallest (largest) entry. *)
Fixpoint py_min (x : Q) (xs : list Q) : Q :=
  match xs with
  | [] => x
  | y :: ys => py_min (if Qle_bool x y then x else y) ys
  end.

Fixpoint py_max (x : Q) (xs : list Q) : Q :=
  match xs with
  | [] => x
  | y :: ys => py_max (if Qle_bool y x then x else y) ys
  end.

(** [flatwellPotential.__init__]; [min] and [max] raise on an empty
    sequence. *)
Definition __init__ (x_range : list Q) (y_max y_min : Q)
  : result flatwellPotential :=
  match x_range with
  | [] => Raise (ValueError "min() arg is an empty sequence")
  | x :: xs =>
      Ok {| x_min := py_min x xs; x_max := py_max x xs;
            y_max := y_max; y_min := y_min |}
  end.

(** The default arguments: [x_range=(0, 1), y_max=1000, y_min=0]. *)
Definition default : result flatwellPotential := __init__ [0; 1] 1000 0.

Definition energy_at (self : flatwellPotential) (pos : Q) : Q :=
  if Qle_bool (x_min self) pos && Qle_bool pos (x_max self)
  then y_min self else y_max self.

Definition dVdpos_at (self : flatwellPotential) (pos : Q) : fvalue :=
  if Qeq_bool pos (x_min self) || Qeq_bool pos (x_max self)
  then PosInf else Num 0.

Definition _calculate_energies (self : flatwellPotential)
  (position : ndarray Q) : ndarray Q :=
  squeeze (Array1 (map (energy_at self) (atleast_1d (squeeze position)))).

Definition _calculate_dVdpos (self : flatwellPotential)
  (positions : ndarray Q) : ndarray fvalue :=
  squeeze (Array1 (map (dVdpos_at self) (atleast_1d (squeeze positions)))).

End FlatWell.

(** ** Single-state potentials as energy and derivative *)

Module Potential.
Local Open Scope R_scope.

(** What a coupling potential and a sampler use of a one-dimensional
    potential: the closed form [V] of its energy and of its derivative
    [dVdpos], both functions of the position [r]. *)
Record potential1D : Type := mkPotential1D {
  V : R -> R;
  dVdpos : R -> R
}.

(** [harmonicOscillatorPotential]: [0.5 * k * (r - r_0) ** 2 + Voffset]. *)
Definition harmonicOscillatorPotential (k x_shift y_shift : R) : potential1D :=
  {| V := fun r => 0.5 * k * (r - x_shift) ^ 2 + y_shift;
     dVdpos := fun r => 1.0 * k * (r - x_shift) |}.

End Potential.

(** ** Exponential coupling ([OneD.exponentialCoupledPotentials]) *)

Module ExpCoupled.
Import Potential.
Local Open Scope R_scope.

(** The [constants] dictionary: one entry per symbol of the class. *)
Record constants : Type := mkConstants {
  c_Va : R -> R;
  c_Vb : R -> R;
  c_eoffA : R;
  c_eoffB : R;
  c_s : R;
  c_temp : R
}.

Section WithGasConstant.

(** [scipy.constants.gas_constant]. *)
Variable gas_constant : R.

(** [beta = const.gas_constant / 1000.0 * temp]. *)
Definition beta (temp : R) : R := gas_constant / 1000.0 * temp.

(** The class attribute [coupling], with the constants substituted:
    [-1/(beta*s) * log(exp(-beta*s*Vb - eoffA) + exp(-beta*s*Va - eoffB))]. *)
Definition coupling (c : constants) (r : R) : R :=
  -1 / (beta (c_temp c) * c_s c)
  * ln (exp (- beta (c_temp c) * c_s c * c_Vb c r - c_eoffA c)
        + exp (- beta (c_temp c) * c_s c * c_Va c r - c_eoffB c)).

(** [coupling.expand()], which [__init__] stores as [V_functional]: the
    exponentials of the sums become products of exponentials. *)
Definition V_functional (c : constants) (r : R) : R :=
  -1 / (beta (c_temp c) * c_s c)
  * ln (exp (- beta (c_temp c) * c_s c * c_Vb c r) * exp (- c_eoffA c)
        + exp (- beta (c_temp c) * c_s c * c_Va c r) * exp (- c_eoffB c)).

(** The potential object.  [compiled] is the evaluator pair: the constants
    that were substituted when the pair was last generated.  [n_compiled]
    counts the generations of the evaluator pair. *)
Record exponentialCoupledPotentials : Type := mkExpCoupled {
  constants_ : constants;
  compiled : constants;
  n_compiled : nat
}.

(** Modelled from the spec: [_update_functions] of the base class
    [_potential1DCls], which is not part of the sources: it substitutes the
    current constants into [V_functional] and regenerates the energy and the
    derivative evaluator from the result. *)
Definition _update_functions (self : exponentialCoupledPotentials)
  : exponentialCoupledPotentials :=
  {| constants_ := constants_ self;
     compiled := constants_ self;
     n_compiled := S (n_compiled self) |}.

(** Modelled from the spec: [ene] of the base class [_potential1DCls]: the
    compiled energy evaluator applied to the position. *)
Definition ene (self : exponentialCoupledPotentials) (r : R) : R :=
  V_functional (compiled self) r.

(** [__init__]: fill the constants, expand the coupling and let the base
    class generate the evaluators. *)
Definition __init__ (Va Vb : potential1D) (eoffA eoffB s temp : R)
  : exponentialCoupledPotentials :=
  _update_functions
    {| constants_ := {| c_Va := V Va; c_Vb := V Vb; c_eoffA := eoffA;
                        c_eoffB := eoffB; c_s := s; c_temp := temp |};
       compiled := {| c_Va := V Va; c_Vb := V Vb; c_eoffA := eoffA;
                      c_eoffB := eoffB; c_s := s; c_temp := temp |};
       n_compiled := 0 |}.

(** [set_s]: [self.constants.update({self.s: s}); self._update_functions()]. *)
Definition set_s (self : exponentialCoupledPotentials) (s : R)
  : exponentialCoupledPotentials :=
  let c := constants_ self in
  _update_functions
    {| constants_ := {| c_Va := c_Va c; c_Vb := c_Vb c; c_eoffA := c_eoffA c;
                        c_eoffB := c_eoffB c; c_s := s; c_temp := c_temp c |};
       compiled := compiled self;
       n_compiled := n_compiled self |}.

(** [set_Eoff]: [eoffs[0]] and [eoffs[1]] go into the constants, then
    [self._update_functions()]; a shorter list raises. *)
Definition set_Eoff (self : exponentialCoupledPotentials) (eoffs : list R)
  : result exponentialCoupledPotentials :=
  match eoffs with
  | e0 :: e1 :: _ =>
      let c := constants_ self in
      Ok (_update_functions
            {| constants_ := {| c_Va := c_Va c; c_Vb := c_Vb c; c_eoffA := e0;
                                c_eoffB := e1; c_s := c_s c;
                                c_temp := c_temp c |};
               compiled := compiled self;
               n_compiled := n_compiled self |})
  | _ => Raise (IndexError "list index out of range")
  end.

End WithGasConstant.

End ExpCoupled.

(** ** The snapshot side of the EDS system ([system/eds_system.py]) *)

Module EdsSystem.
Local Open Scope R_scope.

(** The attributes of [edsSystem] that [set_current_state],
    [updateCurrentState] and [append_state] read or write.  These methods
    ask the potential for its energy only; it is taken here to be the
    two-state EDS potential whose class is part of the sources, the
    exponentially coupled one. *)
Record edsSystem : Type := mkEdsSystem {
  potential : ExpCoupled.exponentialCoupledPotentials;
  mass : R;
  _currentPosition : R;
  _currentVelocities : R;
  _currentTotPot : R;
  _currentTotKin : R;
  _currentTotE : R;
  _currentEdsS : R;
  _currentEdsEoffs : list R
}.

Section WithEnvironment.

Variable gas_constant : R.

(** The kinetic energy of a mass at a velocity, as the base system computes
    it. *)
Variable kinetic_energy : R -> R -> R.

(** Modelled from the spec: [updateSystemProperties] of the base class
    [system], which is not part of the sources: it recomputes the aggregate
    potential, kinetic and total energy from the scratch fields. *)
Definition updateSystemProperties (self : edsSystem) : edsSystem :=
  let totPot := ExpCoupled.ene gas_constant (potential self)
                  (_currentPosition self) in
  let totKin := kinetic_energy (mass self) (_currentVelocities self) in
  {| potential := potential self; mass := mass self;
     _currentPosition := _currentPosition self;
     _currentVelocities := _currentVelocities self;
     _currentTotPot := totPot;
     _currentTotKin := totKin;
     _currentTotE := totPot + totKin;
     _currentEdsS := _currentEdsS self;
     _currentEdsEoffs := _currentEdsEoffs self |}.

End WithEnvironment.

End EdsSystem.

(** ** The wave potential ([OneD.wavePotential]) *)

Module Wave.
Local Open Scope R_scope.

Record constants : Type := mkConstants {
  amplitude : R;
  multiplicity : R;
  phase_shift : R;
  y_shift : R
}.

(** [V_functional = amplitude * cos(multiplicity * (position + phase_shift))
    + y_shift], with the constants substituted. *)
Definition V_functional (c : constants) (r : R) : R :=
  amplitude c * cos (multiplicity c * (r + phase_shift c)) + y_shift c.

(** Its derivative with respect to the position. *)
Definition dVdpos_functional (c : constants) (r : R) : R :=
  - amplitude c * multiplicity c * sin (multiplicity c * (r + phase_shift c)).

(** [np.deg2rad]. *)
Definition deg2rad (x : R) : R := x * (PI / 180).

(** What an evaluator attribute can hold: a function object, or one of the
    two lambdas of [set_degrees], which look up [self.tmp_Vfunc] and
    [self.tmp_dVdpfunc] when they are called. *)
Inductive evaluator : Type :=
| Function (f : R -> R)
| LambdaDegV
| LambdaDegdVdp.

Record wavePotential : Type := mkWave {
  constants_ : constants;
  radians : bool;
  tmp_Vfunc : R -> R;
  tmp_dVdpfunc : R -> R;
  _calculate_energies : evaluator;
  _calculate_dVdpos : evaluator
}.

(** Calling an evaluator attribute of [self] at a position. *)
Definition call (self : wavePotential) (e : evaluator) (positions : R) : R :=
  match e with
  | Function f => f positions
  | LambdaDegV => tmp_Vfunc self (deg2rad positions)
  | LambdaDegdVdp => tmp_dVdpfunc self (deg2rad positions)
  end.

(** The energy and the derivative that the potential reports at a position. *)
Definition energies (self : wavePotential) (positions : R) : R :=
  call self (_calculate_energies self) positions.

Definition dVdpos (self : wavePotential) (positions : R) : R :=
  call self (_calculate_dVdpos self) positions.

(** Modelled from the spec: [_update_functions] of the base class
    [_potential1DCls], which is not part of the sources: the two evaluators
    are generated from [V_functional] with the constants substituted. *)
Definition super_update_functions (self : wavePotential) : wavePotential :=
  {| constants_ := constants_ self;
     radians := radians self;
     tmp_Vfunc := tmp_Vfunc self;
     tmp_dVdpfunc := tmp_dVdpfunc self;
     _calculate_energies := Function (V_functional (constants_ self));
     _calculate_dVdpos := Function (dVdpos_functional (constants_ self)) |}.

(** The override: [super()._update_functions()], then the two evaluators
    are remembered as [tmp_Vfunc] and [tmp_dVdpfunc]. *)
Definition _update_functions (self : wavePotential) : wavePotential :=
  let self1 := super_update_functions self in
  {| constants_ := constants_ self1;
     radians := radians self1;
     tmp_Vfunc := call self1 (_calculate_energies self1);
     tmp_dVdpfunc := call self1 (_calculate_dVdpos self1);
     _calculate_energies := _calculate_energies self1;
     _calculate_dVdpos := _calculate_dVdpos self1 |}.

(** The branch [if (degrees)] of [set_degrees]. *)
Definition wrap_degrees (self : wavePotential) : wavePotential :=
  {| constants_ := constants_ self;
     radians := false;
     tmp_Vfunc := tmp_Vfunc self;
     tmp_dVdpfunc := tmp_dVdpfunc self;
     _calculate_energies := LambdaDegV;
     _calculate_dVdpos := LambdaDegdVdp |}.

(** The branch [if (radians)] of [set_radians]. *)
Definition unwrap_radians (self : wavePotential) : wavePotential :=
  {| constants_ := constants_ self;
     radians := true;
     tmp_Vfunc := tmp_Vfunc self;
     tmp_dVdpfunc := tmp_dVdpfunc self;
     _calculate_energies := Function (tmp_Vfunc self);
     _calculate_dVdpos := Function (tmp_dVdpfunc self) |}.

(** [set_degrees(degrees)]: with [degrees] false it calls
    [set_radians(radians=not degrees)], which takes its first branch. *)
Definition set_degrees (self : wavePotential) (degrees : bool)
  : wavePotential :=
  if degrees then wrap_degrees self else unwrap_radians self.

(** [set_radians(radians)]: with [radians] false it calls
    [set_degrees(degrees=not radians)], which takes its first branch. *)
Definition set_radians (self : wavePotential) (radians : bool)
  : wavePotential :=
  if radians then unwrap_radians self else wrap_degrees self.

(** [__init__]: the constants, [super().__init__()], then
    [self.set_radians(radians)].  Modelled from the spec: [__init__] of the
    base class [_potential1DCls], which is not part of the sources, generates
    the evaluators by a call of [self._update_functions()]. *)
Definition __init__ (amplitude multiplicity phase_shift y_shift : R)
  (radians : bool) : wavePotential :=
  let c := {| amplitude := amplitude; multiplicity := multiplicity;
              phase_shift := phase_shift; y_shift := y_shift |} in
  set_radians
    (_update_functions
       {| constants_ := c; radians := false;
          tmp_Vfunc := V_functional c; tmp_dVdpfunc := dVdpos_functional c;
          _calculate_energies := Function (V_functional c);
          _calculate_dVdpos := Function (dVdpos_functional c) |})
    radians.

(** The default arguments: [amplitude=1.0, multiplicity=1.0, phase_shift=0.0,
    y_shift=0.0, radians=False]. *)
Definition default : wavePotential := __init__ 1.0 1.0 0.0 0.0 false.

End Wave.

(** ** The enveloped potential ([OneD.envelopedPotential]) *)

Module Enveloped.
Import Potential.
Local Open Scope R_scope.

(** A numpy value: a scalar ([np.float64]) or an array of values. *)
#[local] Set Warnings "-register-all".
Inductive nd : Type :=
| Sc (x : R)
| Ar (xs : list nd).

(** A function applied to every entry. *)
Fixpoint nd_map (f : R -> R) (v : nd) : nd :=
  match v with
  | Sc x => Sc (f x)
  | Ar xs => Ar (map (nd_map f) xs)
  end.

(** [np.sum] without an axis: the sum of all entries, a scalar. *)
Fixpoint np_sum (v : nd) : R :=
  match v with
  | Sc x => x
  | Ar xs => fold_right (fun w acc => np_sum w + acc) 0 xs
  end.

(** Iteration over a value: a scalar is not iterable. *)
Definition py_iter (v : nd) : result (list nd) :=
  match v with
  | Sc _ => Raise (TypeError "'numpy.float64' object is not iterable")
  | Ar xs => Ok xs
  end.

(** [f] applied to every entry of a list, stopping at the first exception. *)
Fixpoint for_each {A B : Type} (f : A -> result B) (l : list A)
  : result (list B) :=
  match l with
  | [] => Ok []
  | a :: l' => b <- f a ;; bs <- for_each f l' ;; Ok (b :: bs)
  end.

Fixpoint for_each2 {A B C : Type} (f : A -> B -> result C)
  (l1 : list A) (l2 : list B) : result (list C) :=
  match l1, l2 with
  | a :: l1', b :: l2' =>
      c <- f a b ;; cs <- for_each2 f l1' l2' ;; Ok (c :: cs)
  | _, _ => Ok []
  end.

(** [list(map(f, a, b))]: both arguments are iterated, the shorter one
    decides the length. *)
Definition py_map2 (f : nd -> nd -> result nd) (a b : nd) : result nd :=
  xs <- py_iter a ;;
  ys <- py_iter b ;;
  l <- for_each2 f xs ys ;;
  Ok (Ar l).

(** An arithmetic operation of numpy on two values: entry by entry, a scalar
    paired with every entry of an array. *)
Fixpoint broadcast2 (f : R -> R -> R) (a b : nd) {struct a} : result nd :=
  match a with
  | Sc x => Ok (nd_map (f x) b)
  | Ar xs =>
      match b with
      | Sc y => Ok (nd_map (fun x => f x y) a)
      | Ar ys =>
          l <- (fix go (xs : list nd) (ys : list nd) {struct xs}
                 : result (list nd) :=
                  match xs, ys with
                  | [], [] => Ok []
                  | x :: xs', y :: ys' =>
                      r <- broadcast2 f x y ;;
                      rs <- go xs' ys' ;;
                      Ok (r :: rs)
                  | _, _ =>
                      Raise (ValueError
                               "operands could not be broadcast together")
                  end) xs ys ;;
          Ok (Ar l)
      end
  end.

(** The lambda of the prefactors:
    [1 - np.divide(dimPos, dimPosSum)]. *)
Definition prefactor (dimPos dimPosSum : nd) : result nd :=
  q <- broadcast2 Rdiv dimPos dimPosSum ;;
  Ok (nd_map (fun x => 1 - x) q).

(** Modelled from the spec: [ene] and [force] of the base class
    [_potential1DCls], which is not part of the sources: the energy and the
    derivative evaluator, applied to every position of a batch. *)
Definition state_ene (statePot : potential1D) (state_pos : nd) : nd :=
  nd_map (V statePot) state_pos.

Definition state_force (statePot : potential1D) (state_pos : nd) : nd :=
  nd_map (dVdpos statePot) state_pos.

(** [[f(statePot, state_pos) for statePot, state_pos in zip(V_is, position)]] *)
Fixpoint zip_with {A B C : Type} (f : A -> B -> C) (l1 : list A)
  (l2 : list B) : list C :=
  match l1, l2 with
  | a :: l1', b :: l2' => f a b :: zip_with f l1' l2'
  | _, _ => []
  end.

Record envelopedPotential : Type := mkEnveloped {
  V_is : list potential1D;
  s : R;
  Eoff_i : list R;
  T : R
}.

(** [len(position[0])] on the argument [position]. *)
Definition len_first (position : list nd) : result nat :=
  match position with
  | [] => Raise (IndexError "list index out of range")
  | Sc _ :: _ =>
      Raise (TypeError "object of type 'numpy.float64' has no len()")
  | Ar xs :: _ => Ok (List.length xs)
  end.

Section WithReferenceEnergy.

(** [self.ene] of the enveloped potential comes from [ND.envelopedPotential],
    which is not part of the sources; the routine calls it and
    drops the result. *)
Variable self_ene : envelopedPotential -> list nd -> result nd.

(** [_calculate_dvdpos_singlePos].  The steps are those of the source:
    the reference energy, the energies and the derivatives of the states,
    the sum of all state energies, the prefactors, the scaled derivatives
    and the loop that collects them.  In the loop header the name
    [position] is bound again, to the loop index, so that the body
    subscripts an [int]; after the loop the routine reads the attribute
    [shape] of the list [dhdpos_R]. *)
Definition _calculate_dvdpos_singlePos (self : envelopedPotential)
  (position : list nd) : result nd :=
  V_R_ene <- self_ene self position ;;
  let V_Is_ene := Ar (zip_with state_ene (V_is self) position) in
  let V_Is_dhdpos := Ar (zip_with state_force (V_is self) position) in
  let V_Is_posDim_eneSum := Sc (np_sum V_Is_ene) in
  states <- py_iter V_Is_ene ;;
  rows <- for_each
            (fun Vn_ene =>
               py_map2 (fun pos posSum => py_map2 prefactor pos posSum)
                 Vn_ene V_Is_posDim_eneSum)
            states ;;
  let prefactors := Ar rows in
  dhdpos_state_scaled <- broadcast2 Rmult prefactors V_Is_dhdpos ;;
  n <- len_first position ;;
  match n with
  | O => Raise (AttributeError "'list' object has no attribute 'shape'")
  | S _ => Raise (TypeError "'int' object is not subscriptable")
  end.

End WithReferenceEnergy.

(** What the specification asks of the routine, in its words:
    [w_i = exp(-beta*s*(Vi - Eoffi)) / sum_j exp(-beta*s*(Vj - Eoffj))] and
    [dV/dx = sum_i w_i * dVi/dx]. *)
Definition spec_boltzmann_factor (beta s : R) (Vi Eoffi : R) : R :=
  exp (- beta * s * (Vi - Eoffi)).

Definition spec_partition (beta s : R) (Vs Eoffs : list R) : R :=
  fold_right Rplus 0 (zip_with (spec_boltzmann_factor beta s) Vs Eoffs).

Definition spec_weight (beta s : R) (Vs Eoffs : list R) (Vi Eoffi : R) : R :=
  spec_boltzmann_factor beta s Vi Eoffi / spec_partition beta s Vs Eoffs.

Definition spec_gradient (beta s : R) (Vs Eoffs dVs : list R) : R :=
  fold_right Rplus 0
    (zip_with Rmult (zip_with (spec_weight beta s Vs Eoffs) Vs Eoffs) dVs).

(** Three harmonic oscillators [k = 1, r_0 = 0, Voffset = 0] as states, each
    asked at the one position [1]: every state has the energy [0.5] and the
    derivative [1]. *)
Definition example_potential : envelopedPotential :=
  {| V_is := [harmonicOscillatorPotential 1 0 0;
              harmonicOscillatorPotential 1 0 0;
              harmonicOscillatorPotential 1 0 0];
     s := 1; Eoff_i := [0; 0; 0]; T := 298 |}.

Definition example_position : list nd :=
  [Ar [Ar [Sc 1]]; Ar [Ar [Sc 1]]; Ar [Ar [Sc 1]]].

End Enveloped.

(** ** The setters of the EDS system and the potential they reach
       ([system/eds_system.py], [OneD.envelopedPotential])

    [edsSystem] declares its potential as [pot.envelopedPotential] and
    builds one by default.  The class states its constants and its closed
    form in [OneD.py]; its methods come from [ND.envelopedPotential] and from
    the base class of the potentials, which are not part of the sources.
    [EnvelopedEds] is this potential as the setters of the system use it,
    [EdsSetters] the setters. *)

Module EnvelopedEds.
Import Potential.
Local Open Scope R_scope.

(** The constants of the enveloped potential, the arguments of its
    [__init__]: the states, the smoothing parameter, the energy offsets and
    the temperature. *)
Record constants : Type := mkConstants {
  c_V_is : list potential1D;
  c_s : R;
  c_Eoff_i : list R;
  c_T : R
}.

(** The potential object: its constants, the constants that were
    substituted when the evaluator pair was last generated ([compiled]), and
    the number of generations of the pair. *)
Record envelopedPotential : Type := mkEnveloped {
  constants_ : constants;
  compiled : constants;
  n_compiled : nat
}.

Section WithGasConstant.

(** [kb = const.gas_constant]. *)
Variable kb : R.

(** [beta = 1/kb*T]. *)
Definition beta (T : R) : R := 1 / kb * T.

(** The class attribute [V_functional], with the constants substituted and
    the sum taken over the states:
    [-1 / (beta * s_s) * log(Sum(exp(-beta * s_s * (Vis[i] - Eoffis[i]))))]. *)
Definition V_functional (c : constants) (r : R) : R :=
  -1 / (beta (c_T c) * c_s c)
  * ln (fold_right Rplus 0
          (Enveloped.zip_with
             (fun Vi Eoffi => exp (- beta (c_T c) * c_s c * (V Vi r - Eoffi)))
             (c_V_is c) (c_Eoff_i c))).

(** Modelled from the spec: [_update_functions] of the base class of the
    potentials, which is not part of the sources: it substitutes the current
    constants into [V_functional] and regenerates the energy and the
    derivative evaluator from the result. *)
Definition _update_functions (self : envelopedPotential)
  : envelopedPotential :=
  {| constants_ := constants_ self;
     compiled := constants_ self;
     n_compiled := S (n_compiled self) |}.

(** Modelled from the spec: [ene] of the base class of the potentials: the
    compiled energy evaluator applied to the position. *)
Definition ene (self : envelopedPotential) (r : R) : R :=
  V_functional (compiled self) r.

(** Modelled from the spec: [set_s] of [ND.envelopedPotential], which is not
    part of the sources: a setter that mutates the constant [s] and triggers
    the re-derivation of the evaluator pair. *)
Definition set_s (self : envelopedPotential) (s : R) : envelopedPotential :=
  let c := constants_ self in
  _update_functions
    {| constants_ := {| c_V_is := c_V_is c; c_s := s;
                        c_Eoff_i := c_Eoff_i c; c_T := c_T c |};
       compiled := compiled self;
       n_compiled := n_compiled self |}.

(** Modelled from the spec: the assignment [potential.Eoff_i = Eoff] on an
    [ND.envelopedPotential], which is not part of the sources: changing the
    energy offsets invalidates and recompiles the evaluator pair, as
    changing [s] does. *)
Definition assign_Eoff_i (self : envelopedPotential) (Eoff : list R)
  : envelopedPotential :=
  let c := constants_ self in
  _update_functions
    {| constants_ := {| c_V_is := c_V_is c; c_s := c_s c;
                        c_Eoff_i := Eoff; c_T := c_T c |};
       compiled := compiled self;
       n_compiled := n_compiled self |}.

End WithGasConstant.

End EnvelopedEds.

Module EdsSetters.
Import EnvelopedEds.
Local Open Scope R_scope.

(** The attributes of [edsSystem] that its setters read or write. *)
Record edsSystem : Type := mkEdsSystem {
  potential : envelopedPotential;
  mass : R;
  _currentPosition : R;
  _currentVelocities : R;
  _currentTotPot : R;
  _currentTotKin : R;
  _currentTotE : R;
  _currentEdsS : R;
  _currentEdsEoffs : list R
}.

Definition with_potential (self : edsSystem) (p : envelopedPotential)
  : edsSystem :=
  {| potential := p; mass := mass self;
     _currentPosition := _currentPosition self;
     _currentVelocities := _currentVelocities self;
     _currentTotPot := _currentTotPot self;
     _currentTotKin := _currentTotKin self;
     _currentTotE := _currentTotE self;
     _currentEdsS := _currentEdsS self;
     _currentEdsEoffs := _currentEdsEoffs self |}.

Definition with_currentEdsS (self : edsSystem) (s : R) : edsSystem :=
  {| potential := potential self; mass := mass self;
     _currentPosition := _currentPosition self;
     _currentVelocities := _currentVelocities self;
     _currentTotPot := _currentTotPot self;
     _currentTotKin := _currentTotKin self;
     _currentTotE := _currentTotE self;
     _currentEdsS := s;
     _currentEdsEoffs := _currentEdsEoffs self |}.

Definition with_currentEdsEoffs (self : edsSystem) (Eoff : list R)
  : edsSystem :=
  {| potential := potential self; mass := mass self;
     _currentPosition := _currentPosition self;
     _currentVelocities := _currentVelocities self;
     _currentTotPot := _currentTotPot self;
     _currentTotKin := _currentTotKin self;
     _currentTotE := _currentTotE self;
     _currentEdsS := _currentEdsS self;
     _currentEdsEoffs := Eoff |}.

Section WithEnvironment.

(** [const.gas_constant], which the potential reads. *)
Variable kb : R.

(** The kinetic energy of a mass at a velocity, as the base system computes
    it. *)
Variable kinetic_energy : R -> R -> R.

(** Modelled from the spec: [updateSystemProperties] of the base class
    [system], which is not part of the sources: it recomputes the aggregate
    potential, kinetic and total energy from the scratch fields. *)
Definition updateSystemProperties (self : edsSystem) : edsSystem :=
  let totPot := ene kb (potential self) (_currentPosition self) in
  let totKin := kinetic_energy (mass self) (_currentVelocities self) in
  {| potential := potential self; mass := mass self;
     _currentPosition := _currentPosition self;
     _currentVelocities := _currentVelocities self;
     _currentTotPot := totPot;
     _currentTotKin := totKin;
     _currentTotE := totPot + totKin;
     _currentEdsS := _currentEdsS self;
     _currentEdsEoffs := _currentEdsEoffs self |}.

(** The setter of the property [s]:
    [self._currentEdsS = s; self.potential.set_s(self._currentEdsS);
     self.updateSystemProperties()]. *)
Definition s_setter (self : edsSystem) (s : R) : edsSystem :=
  let self1 := with_currentEdsS self s in
  let self2 := with_potential self1
                 (EnvelopedEds.set_s (potential self1)
                    (_currentEdsS self1)) in
  updateSystemProperties self2.

(** [set_s]: [self.s = s]. *)
Definition set_s (self : edsSystem) (s : R) : edsSystem := s_setter self s.

(** The setter of the property [Eoff]:
    [self._currentEdsEoffs = Eoff;
     self.potential.Eoff_i = self._currentEdsEoffs;
     self.updateSystemProperties()]. *)
Definition Eoff_setter (self : edsSystem) (Eoff : list R) : edsSystem :=
  let self1 := with_currentEdsEoffs self Eoff in
  let self2 := with_potential self1
                 (assign_Eoff_i (potential self1) (_currentEdsEoffs self1)) in
  updateSystemProperties self2.

(** [set_Eoff]: [self.Eoff = Eoff]. *)
Definition set_Eoff (self : edsSystem) (Eoff : list R) : edsSystem :=
  Eoff_setter self Eoff.

End WithEnvironment.

End EdsSetters.

(** ** The Metropolis Monte Carlo sampler ([samplers/stochastic.py]) *)

Module Metropolis.
Local Open Scope R_scope.

(** Comparisons of floats as truth values. *)
Definition Rleb (x y : R) : bool := if Rle_dec x y then true else false.
Definition Rltb (x y : R) : bool := if Rlt_dec x y then true else false.

(** Comparisons of the iteration counter with a limit that may be
    [np.inf]: [k <= b], [b <= k] and [k >= b]. *)
Definition int_le_bound (k : Z) (b : bound) : bool :=
  match b with
  | Fin n => (k <=? n)%Z
  | Inf => true
  end.

Definition bound_le_int (b : bound) (k : Z) : bool :=
  match b with
  | Fin n => (n <=? k)%Z
  | Inf => false
  end.

Definition int_ge_bound (k : Z) (b : bound) : bool := bound_le_int b k.

(** The values that one pass of the acceptance loop reads from [np.random]:
    the [randint(0, 100)] of the sign, the [randint] of the ranged shift, the
    [rand()] of the free shift and the [rand()] of the criterion. *)
Record draws : Type := mkDraws {
  sign_draw : Z;
  grid_draw : Z;
  unit_draw : R;
  accept_draw : R
}.

(** The snapshot [system.current_state]. *)
Record state : Type := mkState {
  position : R;
  temperature : R;
  total_potential_energy : R
}.

(** The parts of the system that the sampler reads or writes;
    [potential_ene] is [system.potential.ene]. *)
Record system : Type := mkSystem {
  current_state : state;
  _currentPosition : R;
  _currentForce : R;
  potential_ene : R -> R
}.

Inductive number : Type :=
| Real (x : R)
| NaN.

Record sampler : Type := mkSampler {
  minStepSize : option R;
  step_size_coefficient : R;
  spaceRange : option (R * R);
  resolution : R;
  fixedStepSize : option R;
  posShift : R;
  _randomness_factor : R;
  maxIterationTillAccept : bound;
  convergence_limit : bound;
  oldpos : R;
  newPos : R
}.

Definition with_posShift (self : sampler) (x : R) : sampler :=
  {| minStepSize := minStepSize self;
     step_size_coefficient := step_size_coefficient self;
     spaceRange := spaceRange self; resolution := resolution self;
     fixedStepSize := fixedStepSize self; posShift := x;
     _randomness_factor := _randomness_factor self;
     maxIterationTillAccept := maxIterationTillAccept self;
     convergence_limit := convergence_limit self;
     oldpos := oldpos self; newPos := newPos self |}.

Definition with_oldpos (self : sampler) (x : R) : sampler :=
  {| minStepSize := minStepSize self;
     step_size_coefficient := step_size_coefficient self;
     spaceRange := spaceRange self; resolution := resolution self;
     fixedStepSize := fixedStepSize self; posShift := posShift self;
     _randomness_factor := _randomness_factor self;
     maxIterationTillAccept := maxIterationTillAccept self;
     convergence_limit := convergence_limit self;
     oldpos := x; newPos := newPos self |}.

Definition with_newPos (self : sampler) (x : R) : sampler :=
  {| minStepSize := minStepSize self;
     step_size_coefficient := step_size_coefficient self;
     spaceRange := spaceRange self; resolution := resolution self;
     fixedStepSize := fixedStepSize self; posShift := posShift self;
     _randomness_factor := _randomness_factor self;
     maxIterationTillAccept := maxIterationTillAccept self;
     convergence_limit := convergence_limit self;
     oldpos := oldpos self; newPos := x |}.

(** [system._currentPosition = pos; system._currentForce = force]. *)
Definition with_scratch (sys : system) (pos force : R) : system :=
  {| current_state := current_state sys;
     _currentPosition := pos;
     _currentForce := force;
     potential_ene := potential_ene sys |}.

(** [_critInSpaceRange]. *)
Definition _critInSpaceRange (self : sampler) (pos : R) : bool :=
  match spaceRange self with
  | None => true
  | Some (a, b) => Rleb (Rmin a b) pos && Rleb pos (Rmax a b)
  end.

(** [random_shift] in one dimension: the sign, the size of the shift by the
    precedence fixed, ranged, free, and the minimal step size. *)
Definition random_shift (self : sampler) (d : draws) : sampler :=
  let sign := if (sign_draw d <? 50)%Z then -1 else 1 in
  let shift :=
    match fixedStepSize self with
    | Some f => f
    | None =>
        match spaceRange self with
        | Some _ => Rabs (IZR (grid_draw d)) * resolution self
        | None => step_size_coefficient self * Rabs (unit_draw d)
        end
    end in
  match minStepSize self with
  | Some m =>
      if Rltb shift m
      then with_posShift self (sign * (if Rltb m shift then shift else m))
      else with_posShift self (sign * shift)
  | None => with_posShift self (sign * shift)
  end.

Section WithGasConstant.

(** [scipy.constants.gas_constant]. *)
Variable gas_constant : R.

(** [_default_randomness]; [rand] is the draw of [np.random.rand()]. *)
Definition _default_randomness (self : sampler) (ene_new : R)
  (current_state : state) (rand : R) : bool :=
  Rleb (_randomness_factor self * rand)
       (exp (-1.0 / (gas_constant / 1000.0 * temperature current_state)
             * (ene_new - total_potential_energy current_state))).

(** [metropolis_criterion]. *)
Definition metropolis_criterion (self : sampler) (ene_new : R)
  (current_state : state) (rand : R) : bool :=
  Rltb ene_new (total_potential_energy current_state)
  || _default_randomness self ene_new current_state rand.

(** The exception of the non-convergence. *)
Definition did_not_converge : exn :=
  ValueError
    "Metropolis-MonteCarlo samplers did not converge! Think about the maxIterationTillAccept".

(** How the acceptance loop of [step] ends: it is left (by [break] or by its
    condition), it raises, or the fuel of the model runs out. *)
Inductive loop_exit : Type :=
| Left (sys : system) (self : sampler) (current_iteration : nat)
| Abort (sys : system) (self : sampler) (e : exn)
| NoFuel.

(** What the body of the loop does before it tests the proposal: the shift
    is drawn and the proposal is written into the system. *)
Definition propose (self : sampler) (sys : system) (d : draws)
  : sampler * system :=
  let self1 := random_shift self d in
  (self1,
   with_scratch sys (oldpos self1 + posShift self1) (posShift self1)).

(** The test of the proposal: the cap on the iterations, or the space range
    and the criterion. *)
Definition accepted (self : sampler) (sys : system) (current_state : state)
  (current_iteration : nat) (d : draws) : bool :=
  bound_le_int (maxIterationTillAccept self) (Z.of_nat current_iteration)
  || (_critInSpaceRange self (_currentPosition sys)
      && metropolis_criterion self
           (potential_ene sys (_currentPosition sys)) current_state
           (accept_draw d)).

(** The proposal of a pass is in the space range and satisfies the
    criterion. *)
Definition passes (self : sampler) (sys : system) (current_state : state)
  (d : draws) : bool :=
  let (self1, sys1) := propose self sys d in
  _critInSpaceRange self1 (_currentPosition sys1)
  && metropolis_criterion self1
       (potential_ene sys1 (_currentPosition sys1)) current_state
       (accept_draw d).

(** The [while] loop of [step]; pass [k] reads [rng k]. *)
Fixpoint acceptance_loop (fuel : nat) (rng : nat -> draws)
  (current_state : state) (current_iteration : nat) (self : sampler)
  (sys : system) : loop_exit :=
  if int_le_bound (Z.of_nat current_iteration) (convergence_limit self)
     && int_le_bound (Z.of_nat current_iteration)
          (maxIterationTillAccept self)
  then
    match fuel with
    | O => NoFuel
    | S fuel' =>
        let d := rng current_iteration in
        let (self1, sys1) := propose self sys d in
        if accepted self1 sys1 current_state current_iteration d
        then Left sys1 self1 current_iteration
        else
          if int_ge_bound (Z.of_nat (S current_iteration))
               (convergence_limit self1)
          then Abort sys1 self1 did_not_converge
          else acceptance_loop fuel' rng current_state (S current_iteration)
                 self1 sys1
    end
  else Left sys self current_iteration.

(** The result of [step]: the returned tuple, or the exception, each with
    the system and the sampler as the call leaves them. *)
Inductive outcome : Type :=
| Returned (sys : system) (self : sampler) (ret : R * number * R)
| Raised (sys : system) (self : sampler) (e : exn)
| OutOfFuel.

(** [metropolisMonteCarloIntegrator.step], with [verbose] off. *)
Definition step (fuel : nat) (rng : nat -> draws) (self : sampler)
  (sys : system) : outcome :=
  let current_state := current_state sys in
  let self0 := with_oldpos self (position current_state) in
  match acceptance_loop fuel rng current_state 0 self0 sys with
  | Left sys1 self1 _ =>
      Returned sys1 (with_newPos self1 (oldpos self1))
        (_currentPosition sys1, NaN, posShift self1)
  | Abort sys1 self1 e => Raised sys1 self1 e
  | NoFuel => OutOfFuel
  end.

End WithGasConstant.

(** The proposal of pass [k] of a call of [step] is rejected: it is outside
    the space range or fails the criterion. *)
Definition rejected (gas_constant : R) (self : sampler) (sys : system)
  (d : draws) : Prop :=
  passes gas_constant (with_oldpos self (position (current_state sys))) sys
    (current_state sys) d = false.

(** The shift that pass [k] draws. *)
Definition shift_of (self : sampler) (d : draws) : R :=
  posShift (random_shift self d).

(** The convergence limit lets the counter reach the cap [m]. *)
Definition limit_above_cap (limit : bound) (m : nat) : Prop :=
  match limit with
  | Inf => True
  | Fin c => (Z.of_nat m < c)%Z \/ (m = 0%nat /\ (0 <= c)%Z)
  end.

(** The cap is off ([np.inf]) or not below [n]. *)
Definition cap_not_below (cap : bound) (n : Z) : Prop :=
  match cap with
  | Inf => True
  | Fin m => (n <= m)%Z
  end.

(** [metropolisMonteCarloIntegrator.__init__]; [convergence_limit] keeps
    the value of the class, [np.inf], until it is assigned. *)
Definition __init__ (space_range : option (R * R))
  (step_size_coefficient : R) (minimal_step_size fixed_step_size : option R)
  (randomness_increase_factor : R) (max_iteration_tillAccept : bound)
  : sampler :=
  {| minStepSize := minimal_step_size;
     step_size_coefficient := step_size_coefficient;
     spaceRange := space_range; resolution := 0.01;
     fixedStepSize := fixed_step_size; posShift := 0;
     _randomness_factor := randomness_increase_factor;
     maxIterationTillAccept := max_iteration_tillAccept;
     convergence_limit := Inf;
     oldpos := 0; newPos := 0 |}.

(** Assignment to the attribute [convergence_limit]. *)
Definition set_convergence_limit (self : sampler) (b : bound) : sampler :=
  {| minStepSize := minStepSize self;
     step_size_coefficient := step_size_coefficient self;
     spaceRange := spaceRange self; resolution := resolution self;
     fixedStepSize := fixedStepSize self; posShift := posShift self;
     _randomness_factor := _randomness_factor self;
     maxIterationTillAccept := maxIterationTillAccept self;
     convergence_limit := b;
     oldpos := oldpos self; newPos := newPos self |}.

(** A run of the test suite's kind: a sampler with a fixed step of [1] and
    the space range [(0, 1)], on a system that stands at position [5] of the
    potential [V(r) = r]; every proposal is [4] or [6]. *)
Definition example_system : system :=
  {| current_state := {| position := 5; temperature := 298;
                         total_potential_energy := 5 |};
     _currentPosition := 5;
     _currentForce := 0;
     potential_ene := fun r => r |}.

Definition example_sampler (cap limit : bound) : sampler :=
  set_convergence_limit
    (__init__ (Some (0, 1)) 5 None (Some 1) 1.25 cap) limit.

Definition example_rng : nat -> draws :=
  fun _ => {| sign_draw := 0; grid_draw := 0; unit_draw := 0;
              accept_draw := 0 |}.

(** Draws whose sign alternates: the passes [0, 2, ...] shift down and the
    passes [1, 3, ...] shift up, so that the example run proposes
    [4, 6, 4, ...]. *)
Definition alternating_rng : nat -> draws :=
  fun k => {| sign_draw := if Nat.even k then 0 else 99; grid_draw := 0;
              unit_draw := 0; accept_draw := 0 |}.

(** What the example run with the convergence limit [2] and the cap off
    leaves behind when it raises on the alternating draws: the proposal of
    its second pass, [6]; the first pass proposed [4]. *)
Definition example_raised_system : system :=
  snd (propose (with_oldpos (example_sampler Inf (Fin 2)) 5) example_system
         (alternating_rng 1)).

Definition example_raised_sampler : sampler :=
  fst (propose (with_oldpos (example_sampler Inf (Fin 2)) 5) example_system
         (alternating_rng 1)).

(** [scipy.constants.gas_constant], in J/(mol K). *)
Definition gas_constant_SI : R := 8.314462618.

End Metropolis.

(** ** The Langevin samplers ([samplers/stochastic.py]) *)

Module Langevin.
Local Open Scope R_scope.

(** An entry of a returned tuple: a float or [None]. *)
Inductive value : Type :=
| Num (x : R)
| NoneV.

(** The parts of the system that the samplers read; [potential_force] is
    [system.potential.force], and [origPotential_force] is the [force] of
    [system.potential.origPotential] where the potential has one. *)
Record system : Type := mkSystem {
  _currentPosition : R;
  _currentVelocities : R;
  temperature : R;
  mass : R;
  potential_force : R -> R;
  reweighting : bool;
  origPotential_force : option (R -> R)
}.

Record sampler : Type := mkSampler {
  dt : R;
  gamma : R;
  _oldPosition : option R;
  _first_step : bool;
  R_x : option R;
  newForces : option R;
  currentPosition : option R;
  currentVelocity : option R
}.

(** [langevinIntegrator.__init__]. *)
Definition __init__ (dt gamma : R) (old_position : option R) : sampler :=
  {| dt := dt; gamma := gamma; _oldPosition := old_position;
     _first_step := true; R_x := None; newForces := None;
     currentPosition := None; currentVelocity := None |}.

(** A float read from an attribute for arithmetic; [None] there is a
    [TypeError]. *)
Definition operand (o : option R) : result R :=
  match o with
  | Some x => Ok x
  | None => Raise (TypeError "unsupported operand type(s): 'NoneType'")
  end.

Definition to_value (o : option R) : value :=
  match o with
  | Some x => Num x
  | None => NoneV
  end.

(** The state of [np.random]: the stream of the normal draws and the number
    of draws taken so far. *)
Record random : Type := mkRandom {
  normal : nat -> R;
  taken : nat
}.

Definition draw (g : random) : R * random :=
  (normal g (taken g), {| normal := normal g; taken := S (taken g) |}).

(** [langevinIntegrator.update_positon]: the position Langevin step, which
    returns [new_position, None, curr_random]. *)
Definition update_positon (self : sampler) (sys : system) (g : random)
  : result (sampler * random * list value) :=
  let (curr_random, g1) := draw g in
  let R_x1 := sqrt (2 * temperature sys * gamma self * mass sys / dt self)
              * curr_random in
  cur <- operand (currentPosition self) ;;
  let newForces1 := - potential_force sys cur in
  old <- operand (_oldPosition self) ;;
  let new_position :=
    (1 / (1 + gamma self * dt self / 2))
    * (2 * cur - old + gamma self * (dt self / 2) * old
       + (dt self ^ 2 / mass sys) * (R_x1 + newForces1)) in
  Ok ({| dt := dt self; gamma := gamma self;
         _oldPosition := _oldPosition self;
         _first_step := _first_step self;
         R_x := Some R_x1; newForces := Some newForces1;
         currentPosition := currentPosition self;
         currentVelocity := currentVelocity self |},
      g1, [Num new_position; NoneV; Num curr_random]).

(** The branch [if self._first_step] of the velocity variant. *)
Definition first_step_draw (self : sampler) (sys : system) (g : random)
  : result (sampler * random) :=
  if _first_step self then
    let (curr_random, g1) := draw g in
    cur <- operand (currentPosition self) ;;
    Ok ({| dt := dt self; gamma := gamma self;
           _oldPosition := _oldPosition self;
           _first_step := false;
           R_x := Some (sqrt (2 * temperature sys * gamma self * mass sys
                              / dt self) * curr_random);
           newForces := Some (- potential_force sys cur);
           currentPosition := currentPosition self;
           currentVelocity := currentVelocity self |}, g1)
  else Ok (self, g).

(** [langevinVelocityIntegrator.update_positon]: the velocity Langevin
    step, which returns [full_step_position, full_step_velocity]. *)
Definition velocity_update_positon (self : sampler) (sys : system)
  (g : random) : result (sampler * random * list value) :=
  sg <- first_step_draw self sys g ;;
  let (self1, g1) := sg in
  vel <- operand (currentVelocity self1) ;;
  f <- operand (newForces self1) ;;
  rx <- operand (R_x self1) ;;
  let half_step_velocity :=
    (1 - gamma self1 * dt self1 / 2) * vel
    + dt self1 / (2 * mass sys) * (f + rx) in
  cur <- operand (currentPosition self1) ;;
  let full_step_position := cur + half_step_velocity * dt self1 in
  let (curr_random, g2) := draw g1 in
  let R_x2 := sqrt (2 * temperature sys * gamma self1 * mass sys / dt self1)
              * curr_random in
  let newForces2 := - potential_force sys full_step_position in
  let full_step_velocity :=
    (1 / (1 + gamma self1 * dt self1 / 2))
    * (half_step_velocity
       + dt self1 / (1 * mass sys) * (newForces2 + R_x2)) in
  Ok ({| dt := dt self1; gamma := gamma self1;
         _oldPosition := _oldPosition self1;
         _first_step := _first_step self1;
         R_x := Some R_x2; newForces := Some newForces2;
         currentPosition := currentPosition self1;
         currentVelocity := currentVelocity self1 |},
      g2, [Num full_step_position; Num full_step_velocity]).

(** The assignment [new_position, new_velocity, curr_random = ...] of
    [step]: a tuple of any other length than three raises. *)
Definition unpack3 (t : list value) : result (value * value * value) :=
  match t with
  | [a; b; c] => Ok (a, b, c)
  | [] => Raise (ValueError "not enough values to unpack (expected 3, got 0)")
  | [_] => Raise (ValueError "not enough values to unpack (expected 3, got 1)")
  | [_; _] =>
      Raise (ValueError "not enough values to unpack (expected 3, got 2)")
  | _ => Raise (ValueError "too many values to unpack (expected 3)")
  end.

(** [langevinIntegrator.step], with [verbose] off.  The method
    [update_positon] is the one of the class of [self]; the velocity
    variant inherits [step] and overrides [update_positon] only. *)
Definition step
  (update_positon :
     sampler -> system -> random -> result (sampler * random * list value))
  (self : sampler) (sys : system) (g : random)
  : result (sampler * random * list value) :=
  let cur := _currentPosition sys in
  let vel := _currentVelocities sys in
  let old :=
    match _oldPosition self with
    | None => cur - vel * dt self
    | Some o => o
    end in
  let self1 :=
    {| dt := dt self; gamma := gamma self; _oldPosition := Some old;
       _first_step := _first_step self; R_x := R_x self;
       newForces := newForces self;
       currentPosition := Some cur; currentVelocity := Some vel |} in
  r <- update_positon self1 sys g ;;
  let '(self2, g2, t) := r in
  u <- unpack3 t ;;
  let '(new_position, new_velocity, curr_random) := u in
  let self3 :=
    {| dt := dt self2; gamma := gamma self2;
       _oldPosition := currentPosition self2;
       _first_step := _first_step self2; R_x := R_x self2;
       newForces := newForces self2;
       currentPosition := currentPosition self2;
       currentVelocity := currentVelocity self2 |} in
  if reweighting sys then
    let orig_force :=
      match origPotential_force sys with
      | Some force => Num (- force cur)
      | None => NoneV
      end in
    Ok (self3, g2,
        [new_position; new_velocity; to_value (newForces self3); curr_random;
         orig_force])
  else
    Ok (self3, g2, [new_position; new_velocity; to_value (newForces self3)]).

Definition langevinIntegrator_step := step update_positon.

Definition langevinVelocityIntegrator_step := step velocity_update_positon.

End Langevin.

(** ** The other single-state potentials of [OneD.py]

    Each class states its energy as the expression [V_functional] in the
    position [r] and the symbols of its constants; here the constants are the
    first arguments and the position is the last one. *)

Module Coulomb.
Local Open Scope R_scope.

(** [(charge1 * charge2) / (position * electric_permetivity * 4 * pi)]. *)
Definition V_functional (q1 q2 epsilon r : R) : R :=
  (q1 * q2) / (r * epsilon * 4 * PI).

End Coulomb.

Module LennardJones.
Local Open Scope R_scope.

(** [4 * epsilon * ((sigma / (position - x_shift)) ** 12
     - (sigma / (position - x_shift)) ** 6) + y_shift]. *)
Definition V_functional (sigma epsilon x_shift y_shift r : R) : R :=
  4 * epsilon * ((sigma / (r - x_shift)) ^ 12 - (sigma / (r - x_shift)) ^ 6)
  + y_shift.

End LennardJones.

Module DoubleWell.
Local Open Scope R_scope.

(** [(Vmax / (b ** 4)) * ((position - a / 2) ** 2 - b ** 2) ** 2]. *)
Definition V_functional (Vmax a b r : R) : R :=
  (Vmax / (b ^ 4)) * ((r - a / 2) ^ 2 - b ^ 2) ^ 2.

End DoubleWell.

Module Gauss.
Local Open Scope R_scope.

(** [A * exp(-(position - mu) ** 2 / (2 * sigma ** 2))]. *)
Definition V_functional (A mu sigma r : R) : R :=
  A * exp (- (r - mu) ^ 2 / (2 * sigma ^ 2)).

End Gauss.

(** ** The linear coupling ([OneD.linearCoupledPotentials])

    The class attribute [coupling], with the energies [Va] and [Vb] of the
    two states at the position in place of the symbols [V_a] and [V_b]. *)

Module LinearCoupled.
Local Open Scope R_scope.

(** [(1 - lam) * Va + lam * Vb]. *)
Definition coupling (lam Va Vb : R) : R := (1 - lam) * Va + lam * Vb.

End LinearCoupled.

(** ** The dummy potential ([OneD.dummyPotential]) *)

Module Dummy.
Import FlatWell.
Local Open Scope Q_scope.

Record dummyPotential : Type := mkDummy {
  y_shift : Q
}.

(** [len(positions)]: a bare number has no length. *)
Definition py_len {A : Type} (positions : ndarray A) : result nat :=
  match positions with
  | Scalar _ => Raise (TypeError "object of type 'float' has no len()")
  | Array1 l => Ok (List.length l)
  end.

(** The lambda that [__init__] stores as [_calculate_energies]:
    [np.squeeze(np.full(len(positions), y_shift))]. *)
Definition _calculate_energies (self : dummyPotential)
  (positions : ndarray Q) : result (ndarray Q) :=
  n <- py_len positions ;;
  Ok (squeeze (Array1 (repeat (y_shift self) n))).

(** The lambda that [__init__] stores as [_calculate_dVdpos]:
    [np.squeeze(np.zeros(len(positions)))]. *)
Definition _calculate_dVdpos (self : dummyPotential)
  (positions : ndarray Q) : result (ndarray Q) :=
  n <- py_len positions ;;
  Ok (squeeze (Array1 (repeat 0 n))).

End Dummy.

(** ** Conditions ([conditions/_conditions.py]) *)

Module Conditions.

(** The operands of the [+] that builds the messages: a string or a
    class object. *)
Inductive pyobj : Type :=
| Str (s : string)
| Class (name : string).

(** [a + b] with a string on the left: only a string can be appended. *)
Definition str_add (a : string) (b : pyobj) : result string :=
  match b with
  | Str s => Ok (a ++ s)%string
  | Class _ =>
      Raise (TypeError "can only concatenate str (not 'type') to str")
  end.

(** What a call that never returns raises: the exception of its [raise]
    statement, or the one that evaluating its argument raised before. *)
Inductive raised : Type :=
| NotImplementedError (msg : string)
| Earlier (e : exn).

Definition raise_NotImplementedError (msg : result string) : raised :=
  match msg with
  | Ok m => NotImplementedError m
  | Raise e => Earlier e
  end.

(** [_conditionCls.__init__]:
    [raise NotImplementedError("This " + __class__ + " class is not
    implemented")], where [__class__] is the class [_conditionCls]. *)
Definition __init__ (sys : Type) (s : sys) : raised :=
  raise_NotImplementedError
    (m <- str_add "This " (Class "_conditionCls") ;;
     str_add m (Str " class is not implemented")).

(** [_conditionCls.apply]. *)
Definition apply : raised :=
  raise_NotImplementedError
    (m <- str_add "The function step in " (Class "_conditionCls") ;;
     str_add m (Str " class is not implemented")).

End Conditions.

(** ** The plain Monte Carlo sampler ([samplers/stochastic.py]) *)

Module MonteCarlo.
Import Metropolis.
Local Open Scope R_scope.

(** [monteCarloIntegrator] has the attributes of [stochasticSampler], which
    the record [sampler] carries; it does not read [_randomness_factor],
    [maxIterationTillAccept] or [convergence_limit]. *)

(** The body of the [while (True)] loop up to its test: the shift is drawn
    and [self.newPos = np.add(self.oldpos, self.posShift)]. *)
Definition propose (self : sampler) (d : draws) : sampler :=
  let self1 := random_shift self d in
  with_newPos self1 (oldpos self1 + posShift self1).

(** The [while (True)] loop of [step]: it ends when a proposal is in the
    space range; [None] is the fuel of the model running out. *)
Fixpoint search (fuel : nat) (rng : nat -> draws) (k : nat) (self : sampler)
  : option sampler :=
  match fuel with
  | O => None
  | S fuel' =>
      let self1 := propose self (rng k) in
      if _critInSpaceRange self1 (newPos self1)
      then Some self1
      else search fuel' rng (S k) self1
  end.

(** [monteCarloIntegrator.step], with [verbose] off. *)
Definition step (fuel : nat) (rng : nat -> draws) (self : sampler)
  (sys : system) : outcome :=
  let self0 := with_oldpos self (position (current_state sys)) in
  match search fuel rng 0 self0 with
  | Some self1 => Returned sys self1 (newPos self1, NaN, posShift self1)
  | None => OutOfFuel
  end.

(** The proposal that pass [k] of a call of [step] makes is in the space
    range. *)
Definition in_range (self : sampler) (sys : system) (d : draws) : bool :=
  _critInSpaceRange self (position (current_state sys) + shift_of self d).

End MonteCarlo.

(** ** The state and the trajectory of the EDS system
       ([system/eds_system.py]) *)

Module EdsTrajectory.
Import EdsSystem.
Local Open Scope R_scope.

(** The snapshot that [updateCurrentState] builds: the fields of the
    keyword arguments of its call of [self.state]. *)
Record envelopedPStstate : Type := mkState {
  position : R;
  temperature : R;
  totEnergy : R;
  totPotEnergy : R;
  totKinEnergy : R;
  dhdpos : R;
  velocity : R;
  s : R;
  Eoff : list R
}.

(** The EDS system with the attributes that [set_current_state] and
    [append_state] write beside those of [edsSystem]; the trajectory is the
    sequence of its rows, the last row last. *)
Record system : Type := mkSystem {
  base : edsSystem;
  _currentForce : R;
  _currentTemperature : R;
  currentState : option envelopedPStstate;
  trajectory : list envelopedPStstate
}.

(** The assignments to the scratch fields that both methods start with. *)
Definition assign_scratch (self : system)
  (currentPosition currentVelocities currentForce current_s : R)
  (current_Eoff : list R) : system :=
  {| base :=
       {| potential := potential (base self); mass := mass (base self);
          _currentPosition := currentPosition;
          _currentVelocities := currentVelocities;
          _currentTotPot := _currentTotPot (base self);
          _currentTotKin := _currentTotKin (base self);
          _currentTotE := _currentTotE (base self);
          _currentEdsS := current_s;
          _currentEdsEoffs := current_Eoff |};
     _currentForce := currentForce;
     _currentTemperature := _currentTemperature self;
     currentState := currentState self;
     trajectory := trajectory self |}.

Section WithEnvironment.

Variable gas_constant : R.
Variable kinetic_energy : R -> R -> R.

(** [self.updateSystemProperties()] on the extended system. *)
Definition refresh (self : system) : system :=
  {| base := updateSystemProperties gas_constant kinetic_energy (base self);
     _currentForce := _currentForce self;
     _currentTemperature := _currentTemperature self;
     currentState := currentState self;
     trajectory := trajectory self |}.

(** [updateCurrentState]. *)
Definition updateCurrentState (self : system) : system :=
  {| base := base self;
     _currentForce := _currentForce self;
     _currentTemperature := _currentTemperature self;
     currentState :=
       Some {| position := _currentPosition (base self);
               temperature := _currentTemperature self;
               totEnergy := _currentTotE (base self);
               totPotEnergy := _currentTotPot (base self);
               totKinEnergy := _currentTotKin (base self);
               dhdpos := _currentForce self;
               velocity := _currentVelocities (base self);
               s := _currentEdsS (base self);
               Eoff := _currentEdsEoffs (base self) |};
     trajectory := trajectory self |}.

(** [set_current_state]. *)
Definition set_current_state (self : system)
  (currentPosition currentVelocities currentForce current_s : R)
  (current_Eoff : list R) (currentTemperature : R) : system :=
  let self1 := assign_scratch self currentPosition currentVelocities
                 currentForce current_s current_Eoff in
  let self2 := {| base := base self1;
                  _currentForce := _currentForce self1;
                  _currentTemperature := currentTemperature;
                  currentState := currentState self1;
                  trajectory := trajectory self1 |} in
  updateCurrentState (refresh self2).

(** [append_state]: the scratch fields, the aggregate energies, the
    snapshot, and the snapshot appended to the trajectory. *)
Definition append_state (self : system)
  (newPosition newVelocity newForces newS : R) (newEoff : list R)
  : system :=
  let self1 := assign_scratch self newPosition newVelocity newForces newS
                 newEoff in
  let self2 := updateCurrentState (refresh self1) in
  {| base := base self2;
     _currentForce := _currentForce self2;
     _currentTemperature := _currentTemperature self2;
     currentState := currentState self2;
     trajectory :=
       match currentState self2 with
       | Some row => trajectory self2 ++ [row]
       | None => trajectory self2
       end |}.

(** Appending the states of a list of steps, one after the other. *)
Fixpoint append_states (self : system)
  (steps : list (R * R * R * R * list R)) : system :=
  match steps with
  | [] => self
  | (newPosition, newVelocity, newForces, newS, newEoff) :: rest =>
      append_states
        (append_state self newPosition newVelocity newForces newS newEoff)
        rest
  end.

End WithEnvironment.

End EdsTrajectory.

(** * Properties *)

(** ** Flat well *)

Section FlatWellFacts.
Import FlatWell.
Local Open Scope Q_scope.

Lemma Qle_bool_false_le (x y : Q) : Qle_bool x y = false -> y <= x.
Proof.
  intros E. destruct (Qlt_le_dec y x) as [H|H]; [apply Qlt_le_weak, H|].
  apply Qle_bool_iff in H. congruence.
Qed.

Lemma py_min_le_acc (xs : list Q) (x : Q) : py_min x xs <= x.
Proof.
  revert x; induction xs as [|y ys IH]; intros x; simpl.
  - apply Qle_refl.
  - destruct (Qle_bool x y) eqn:E.
    + apply IH.
    + eapply Qle_trans; [apply IH|apply Qle_bool_false_le, E].
Qed.

Lemma py_min_lower (xs : list Q) (x z : Q) :
  In z (x :: xs) -> py_min x xs <= z.
Proof.
  revert x; induction xs as [|y ys IH]; intros x Hin; simpl.
  - destruct Hin as [->|[]]. apply Qle_refl.
  - destruct (Qle_bool x y) eqn:E.
    + destruct Hin as [->|[->|Hin]].
      * apply py_min_le_acc.
      * eapply Qle_trans; [apply py_min_le_acc|apply Qle_bool_iff, E].
      * apply IH. right. exact Hin.
    + destruct Hin as [->|Hin].
      * eapply Qle_trans; [apply py_min_le_acc|apply Qle_bool_false_le, E].
      * apply IH. exact Hin.
Qed.

Lemma py_min_in (xs : list Q) (x : Q) : In (py_min x xs) (x :: xs).
Proof.
  revert x; induction xs as [|y ys IH]; intros x; simpl.
  - left; reflexivity.
  - destruct (Qle_bool x y).
    + destruct (IH x) as [H|H]; [left; exact H|right; right; exact H].
    + right. apply IH.
Qed.

Lemma py_max_ge_acc (xs : list Q) (x : Q) : x <= py_max x xs.
Proof.
  revert x; induction xs as [|y ys IH]; intros x; simpl.
  - apply Qle_refl.
  - destruct (Qle_bool y x) eqn:E.
    + apply IH.
    + eapply Qle_trans; [apply Qle_bool_false_le, E|apply IH].
Qed.

Lemma py_max_upper (xs : list Q) (x z : Q) :
  In z (x :: xs) -> z <= py_max x xs.
Proof.
  revert x; induction xs as [|y ys IH]; intros x Hin; simpl.
  - destruct Hin as [->|[]]. apply Qle_refl.
  - destruct (Qle_bool y x) eqn:E.
    + destruct Hin as [->|[->|Hin]].
      * apply py_max_ge_acc.
      * eapply Qle_trans; [apply Qle_bool_iff, E|apply py_max_ge_acc].
      * apply IH. right. exact Hin.
    + destruct Hin as [->|Hin].
      * eapply Qle_trans; [apply Qle_bool_false_le, E|apply py_max_ge_acc].
      * apply IH. exact Hin.
Qed.

Lemma py_max_in (xs : list Q) (x : Q) : In (py_max x xs) (x :: xs).
Proof.
  revert x; induction xs as [|y ys IH]; intros x; simpl.
  - left; reflexivity.
  - destruct (Qle_bool y x).
    + destruct (IH x) as [H|H]; [left; exact H|right; right; exact H].
    + right. apply IH.
Qed.

Lemma energy_at_inside (self : flatwellPotential) (p : Q) :
  x_min self <= p /\ p <= x_max self -> energy_at self p = y_min self.
Proof.
  intros [H1 H2]. unfold energy_at.
  apply Qle_bool_iff in H1, H2. rewrite H1, H2. reflexivity.
Qed.

Lemma energy_at_outside (self : flatwellPotential) (p : Q) :
  ~ (x_min self <= p /\ p <= x_max self) -> energy_at self p = y_max self.
Proof.
  intros H. unfold energy_at.
  destruct (Qle_bool (x_min self) p) eqn:E1; [|reflexivity].
  destruct (Qle_bool p (x_max self)) eqn:E2; [|reflexivity].
  exfalso. apply H. split; apply Qle_bool_iff; assumption.
Qed.

Lemma dVdpos_at_boundary (self : flatwellPotential) (p : Q) :
  p == x_min self \/ p == x_max self -> dVdpos_at self p = PosInf.
Proof.
  intros H. unfold dVdpos_at.
  destruct H as [H|H]; apply Qeq_bool_iff in H; rewrite H;
    [reflexivity|rewrite orb_true_r; reflexivity].
Qed.

Lemma dVdpos_at_elsewhere (self : flatwellPotential) (p : Q) :
  ~ (p == x_min self \/ p == x_max self) -> dVdpos_at self p = Num 0.
Proof.
  intros H. unfold dVdpos_at.
  destruct (Qeq_bool p (x_min self)) eqn:E1.
  - exfalso. apply H. left. apply Qeq_bool_iff, E1.
  - destruct (Qeq_bool p (x_max self)) eqn:E2; [|reflexivity].
    exfalso. apply H. right. apply Qeq_bool_iff, E2.
Qed.

(** C8: a flat well built from [x_range], [y_max], [y_min] has for [x_min]
    and [x_max] the smallest and the largest entry of [x_range]; at every
    position [p] its energy is [y_min] when [x_min <= p <= x_max] and [y_max]
    otherwise, and its force is [+inf] exactly when [p] equals [x_min] or
    [x_max], and [0] at every other [p]. *)
Theorem C8_flatwell_energy_and_force
  (x_range : list Q) (ymax ymin : Q) (self : flatwellPotential)
  (Hinit : __init__ x_range ymax ymin = Ok self) :
  (In (x_min self) x_range /\ In (x_max self) x_range
   /\ forall z, In z x_range -> x_min self <= z /\ z <= x_max self)
  /\ forall p : Q,
      (x_min self <= p /\ p <= x_max self ->
       _calculate_energies self (Scalar p) = Scalar ymin)
      /\ (~ (x_min self <= p /\ p <= x_max self) ->
          _calculate_energies self (Scalar p) = Scalar ymax)
      /\ (p == x_min self \/ p == x_max self ->
          _calculate_dVdpos self (Scalar p) = Scalar PosInf)
      /\ (~ (p == x_min self \/ p == x_max self) ->
          _calculate_dVdpos self (Scalar p) = Scalar (Num 0)).
Proof.
  unfold __init__ in Hinit.
  destruct x_range as [|x xs]; [discriminate|].
  injection Hinit as <-. split.
  - cbn [x_min x_max]. split; [apply py_min_in|]. split; [apply py_max_in|].
    intros z Hz. split; [apply py_min_lower|apply py_max_upper]; exact Hz.
  - intros p. unfold _calculate_energies, _calculate_dVdpos.
    cbn [squeeze atleast_1d map].
    repeat split; intros H.
    + rewrite energy_at_inside by exact H. reflexivity.
    + rewrite energy_at_outside by exact H. reflexivity.
    + rewrite dVdpos_at_boundary by exact H. reflexivity.
    + rewrite dVdpos_at_elsewhere by exact H. reflexivity.
Qed.

(** The flat well of the test suite: range [(0, 1)], [y_min = 0],
    [y_max = 1000]. *)
Lemma C8_flatwell_witness :
  __init__ [0; 1] 1000 0 = Ok (mkFlatwell 0 1 1000 0)
  /\ _calculate_energies (mkFlatwell 0 1 1000 0) (Scalar (1 # 2)) = Scalar 0
  /\ _calculate_energies (mkFlatwell 0 1 1000 0) (Scalar 2) = Scalar 1000
  /\ _calculate_dVdpos (mkFlatwell 0 1 1000 0) (Scalar 0) = Scalar PosInf
  /\ _calculate_dVdpos (mkFlatwell 0 1 1000 0) (Scalar 1) = Scalar PosInf
  /\ _calculate_dVdpos (mkFlatwell 0 1 1000 0) (Scalar (1 # 2))
     = Scalar (Num 0).
Proof.
  pose proof (C8_flatwell_energy_and_force [0; 1] 1000 0
                (mkFlatwell 0 1 1000 0) eq_refl) as [_ H].
  split; [reflexivity|].
  split; [apply (H (1 # 2)); split; discriminate|].
  split; [apply (H 2); intros [_ H2]; apply H2; reflexivity|].
  split; [apply (H 0); left; reflexivity|].
  split; [apply (H 1); right; reflexivity|].
  apply (H (1 # 2)). intros [H1|H1]; discriminate H1.
Defined.

(** On a batch the evaluators work entry by entry. *)
Lemma flatwell_batch (self : flatwellPotential) (p q : Q) (ps : list Q) :
  _calculate_energies self (Array1 (p :: q :: ps))
  = Array1 (map (energy_at self) (p :: q :: ps))
  /\ _calculate_dVdpos self (Array1 (p :: q :: ps))
     = Array1 (map (dVdpos_at self) (p :: q :: ps)).
Proof. split; reflexivity. Qed.

End FlatWellFacts.

(** ** The harmonic oscillator *)

Section HarmonicFacts.
Import Potential.
Local Open Scope R_scope.

(** [dVdpos] of the harmonic oscillator is the derivative of its energy. *)
Lemma harmonic_dVdpos_is_derivative (k x_shift y_shift r : R) :
  derivable_pt_lim (V (harmonicOscillatorPotential k x_shift y_shift)) r
    (dVdpos (harmonicOscillatorPotential k x_shift y_shift) r).
Proof.
  cbn [V dVdpos harmonicOscillatorPotential].
  assert (Hin : derivable_pt_lim (fun x => x - x_shift) r (1 - 0)).
  { apply (derivable_pt_lim_minus id (fun _ => x_shift) r 1 0).
    - apply derivable_pt_lim_id.
    - apply derivable_pt_lim_const. }
  pose proof (derivable_pt_lim_comp (fun x => x - x_shift) (fun y => y ^ 2) r
                _ _ Hin (derivable_pt_lim_pow _ 2)) as Hsq.
  pose proof (derivable_pt_lim_scal _ (0.5 * k) r _ Hsq) as Hscal.
  pose proof (derivable_pt_lim_plus _ (fun _ => y_shift) r _ 0 Hscal
                (derivable_pt_lim_const y_shift r)) as H.
  replace (1.0 * k * (r - x_shift))
    with (0.5 * k * (INR 2 * (r - x_shift) ^ Nat.pred 2 * (1 - 0)) + 0)
    by (cbn; lra).
  eapply derivable_pt_lim_ext; [|exact H].
  intros x. unfold plus_fct, mult_real_fct, comp. cbn. lra.
Qed.

(** The harmonic oscillator of the test suite: the energy at the shift is
    the offset and the derivative there is zero. *)
Lemma harmonic_at_shift (k x_shift y_shift : R) :
  V (harmonicOscillatorPotential k x_shift y_shift) x_shift = y_shift
  /\ dVdpos (harmonicOscillatorPotential k x_shift y_shift) x_shift = 0.
Proof. cbn. split; ring. Qed.

End HarmonicFacts.

(** ** Exponential coupling *)

Section ExpCoupledFacts.
Import Potential ExpCoupled.
Local Open Scope R_scope.

Variable gas_constant : R.

(** The expansion that [__init__] applies keeps the value of the coupling. *)
Lemma V_functional_coupling (c : constants) (r : R) :
  V_functional gas_constant c r = coupling gas_constant c r.
Proof.
  unfold V_functional, coupling.
  rewrite <- !exp_plus. reflexivity.
Qed.

(** C7: the energy of the exponentially coupled potential is the same
    when [Va] is exchanged with [Vb] and [eoffA] with [eoffB], at every
    position and for every [s] and temperature. *)
Theorem C7_exponential_coupling_swap_symmetric
  (Va Vb : potential1D) (eoffA eoffB s temp r : R) :
  ene gas_constant (__init__ Va Vb eoffA eoffB s temp) r
  = ene gas_constant (__init__ Vb Va eoffB eoffA s temp) r.
Proof.
  unfold ene, __init__, _update_functions, V_functional. cbn.
  f_equal. f_equal. apply Rplus_comm.
Qed.

End ExpCoupledFacts.

(** ** The setters of the EDS system *)

Section EdsSettersFacts.
Import EnvelopedEds EdsSetters.
Local Open Scope R_scope.

Variable kb : R.
Variable kinetic_energy : R -> R -> R.

(** The energies that a refresh computes once the potential [p] is in
    place: the potential energy comes from the evaluator of [p]. *)
Lemma refresh_after_push (self : edsSystem) (p : envelopedPotential) :
  let self' := updateSystemProperties kb kinetic_energy
                 (with_potential self p) in
  potential self' = p
  /\ _currentTotPot self' = ene kb p (_currentPosition self)
  /\ _currentTotKin self'
     = kinetic_energy (mass self) (_currentVelocities self)
  /\ _currentTotE self' = _currentTotPot self' + _currentTotKin self'.
Proof. repeat split. Qed.

(** C2: [set_s(s)] and [set_Eoff(Eoff)] of the EDS system each store the
    new value in the system and push it into the constants of the owned
    enveloped potential, where nothing else changes; the evaluator pair of
    the potential is generated again, once, from the new constants, so that
    it gives the energy of the new constants at every position; and the
    aggregate energies of the system are computed after that, the potential
    energy with the new pair at the current position.  The two calls one
    after the other leave both values in the potential. *)
Theorem C2_eds_setters_push_recompile_refresh (self : edsSystem) (s : R)
  (Eoff : list R) :
  let c := constants_ (potential self) in
  let with_s := {| c_V_is := c_V_is c; c_s := s; c_Eoff_i := c_Eoff_i c;
                   c_T := c_T c |} in
  let with_Eoff := {| c_V_is := c_V_is c; c_s := c_s c; c_Eoff_i := Eoff;
                      c_T := c_T c |} in
  let with_both := {| c_V_is := c_V_is c; c_s := s; c_Eoff_i := Eoff;
                      c_T := c_T c |} in
  let after_s := set_s kb kinetic_energy self s in
  let after_Eoff := set_Eoff kb kinetic_energy self Eoff in
  let after_both := set_Eoff kb kinetic_energy after_s Eoff in
  (_currentEdsS after_s = s
   /\ _currentEdsEoffs after_s = _currentEdsEoffs self
   /\ constants_ (potential after_s) = with_s
   /\ compiled (potential after_s) = with_s
   /\ n_compiled (potential after_s) = S (n_compiled (potential self))
   /\ (forall r, ene kb (potential after_s) r = V_functional kb with_s r)
   /\ _currentTotPot after_s = V_functional kb with_s (_currentPosition self)
   /\ _currentTotKin after_s
      = kinetic_energy (mass self) (_currentVelocities self)
   /\ _currentTotE after_s = _currentTotPot after_s + _currentTotKin after_s)
  /\ (_currentEdsEoffs after_Eoff = Eoff
      /\ _currentEdsS after_Eoff = _currentEdsS self
      /\ constants_ (potential after_Eoff) = with_Eoff
      /\ compiled (potential after_Eoff) = with_Eoff
      /\ n_compiled (potential after_Eoff) = S (n_compiled (potential self))
      /\ (forall r, ene kb (potential after_Eoff) r
                    = V_functional kb with_Eoff r)
      /\ _currentTotPot after_Eoff
         = V_functional kb with_Eoff (_currentPosition self)
      /\ _currentTotKin after_Eoff
         = kinetic_energy (mass self) (_currentVelocities self)
      /\ _currentTotE after_Eoff
         = _currentTotPot after_Eoff + _currentTotKin after_Eoff)
  /\ (_currentEdsS after_both = s
      /\ _currentEdsEoffs after_both = Eoff
      /\ constants_ (potential after_both) = with_both
      /\ compiled (potential after_both) = with_both
      /\ n_compiled (potential after_both)
         = S (S (n_compiled (potential self)))
      /\ _currentTotPot after_both
         = V_functional kb with_both (_currentPosition self)).
Proof.
  intros c with_s with_Eoff with_both after_s after_Eoff after_both.
  unfold after_both, after_s, after_Eoff, set_s, set_Eoff, s_setter,
    Eoff_setter.
  split; [|split].
  - destruct (refresh_after_push (with_currentEdsS self s)
                (EnvelopedEds.set_s (potential self) s))
      as (Hp & Hpot & Hkin & Htot).
    cbn zeta in Hp, Hpot, Hkin, Htot.
    repeat split; try assumption.
  - destruct (refresh_after_push (with_currentEdsEoffs self Eoff)
                (assign_Eoff_i (potential self) Eoff))
      as (Hp & Hpot & Hkin & Htot).
    cbn zeta in Hp, Hpot, Hkin, Htot.
    repeat split; try assumption.
  - repeat split.
Qed.

End EdsSettersFacts.

(** ** The wave potential *)

Section WaveFacts.
Import Wave.
Local Open Scope R_scope.

(** A default wave potential is in degrees: its evaluators convert the
    position before they apply the closed form. *)
Lemma default_is_in_degrees (positions : R) :
  radians default = false
  /\ energies default positions
     = V_functional (constants_ default) (deg2rad positions)
  /\ dVdpos default positions
     = dVdpos_functional (constants_ default) (deg2rad positions).
Proof. repeat split. Qed.

(** [dVdpos_functional] is the derivative of [V_functional] with respect
    to the position. *)
Lemma dVdpos_functional_is_derivative (c : constants) (r : R) :
  derivable_pt_lim (V_functional c) r (dVdpos_functional c r).
Proof.
  unfold V_functional, dVdpos_functional.
  set (A := amplitude c). set (m := multiplicity c).
  set (w := phase_shift c). set (Voff := y_shift c).
  assert (Hin : derivable_pt_lim (fun x => m * (x + w)) r (m * (1 + 0))).
  { apply (derivable_pt_lim_scal (fun x => x + w) m r (1 + 0)).
    apply (derivable_pt_lim_plus id (fun _ => w) r 1 0).
    - apply derivable_pt_lim_id.
    - apply derivable_pt_lim_const. }
  pose proof (derivable_pt_lim_comp (fun x => m * (x + w)) cos r
                (m * (1 + 0)) (- sin (m * (r + w))) Hin
                (derivable_pt_lim_cos _)) as Hcos.
  pose proof (derivable_pt_lim_scal _ A r _ Hcos) as Hscal.
  pose proof (derivable_pt_lim_plus _ (fun _ => Voff) r _ 0 Hscal
                (derivable_pt_lim_const Voff r)) as H.
  replace (- A * m * sin (m * (r + w)))
    with (A * (- sin (m * (r + w)) * (m * (1 + 0))) + 0) by ring.
  exact H.
Qed.

Lemma cos_1_lt_cos_1_degree : cos 1 < cos (PI / 180).
Proof.
  pose proof PI_4 as H4. pose proof PI2_1 as H1. pose proof PI_RGT_0 as H0.
  apply cos_decreasing_1; lra.
Qed.

(** The default wave potential after [set_degrees(True); set_radians(True)]
    reports another energy at the position [1] than an untouched one:
    [cos 1] instead of the cosine of one degree. *)
Lemma C9_counterexample :
  energies (set_radians (set_degrees default true) true) 1
  <> energies default 1.
Proof.
  cbn. unfold V_functional, deg2rad. cbn. intros H.
  replace (1.0 * (1 + 0.0)) with 1 in H by lra.
  replace (1.0 * (1 * (PI / 180) + 0.0)) with (PI / 180) in H by lra.
  pose proof cos_1_lt_cos_1_degree. lra.
Qed.

(** C9 (amended): on a wave potential built with [radians=True],
    [set_degrees(True)] followed by [set_radians(True)] restores the energy
    and the force evaluator at every position; on a default one, which is in
    degrees, the mirrored sequence [set_radians(True); set_degrees(True)]
    does. *)
Theorem C9_unit_toggle_round_trip
  (amplitude multiplicity phase_shift y_shift positions : R) :
  let in_radians :=
    __init__ amplitude multiplicity phase_shift y_shift true in
  let in_degrees :=
    __init__ amplitude multiplicity phase_shift y_shift false in
  (energies (set_radians (set_degrees in_radians true) true) positions
   = energies in_radians positions
   /\ dVdpos (set_radians (set_degrees in_radians true) true) positions
      = dVdpos in_radians positions)
  /\ (energies (set_degrees (set_radians in_degrees true) true) positions
      = energies in_degrees positions
      /\ dVdpos (set_degrees (set_radians in_degrees true) true) positions
         = dVdpos in_degrees positions).
Proof. repeat split. Qed.

End WaveFacts.

(** ** The enveloped potential *)

Section EnvelopedFacts.
Import Potential Enveloped.
Local Open Scope R_scope.

Variable self_ene : envelopedPotential -> list nd -> result nd.

(** The sum of all state energies is a scalar, and [map] cannot iterate
    it. *)
Lemma prefactor_row_raises (Vn_ene : nd) (total : R) :
  is_raise (py_map2 (fun pos posSum => py_map2 prefactor pos posSum)
              Vn_ene (Sc total)).
Proof. destruct Vn_ene; exact I. Qed.

(** The routine raises on every input: with a state to work on, in the
    prefactors; without one, in what follows them. *)
Lemma _calculate_dvdpos_singlePos_raises (self : envelopedPotential)
  (position : list nd) :
  is_raise (_calculate_dvdpos_singlePos self_ene self position).
Proof.
  unfold _calculate_dvdpos_singlePos.
  destruct (self_ene self position) as [V_R_ene|e]; [|exact I].
  cbn [bind].
  destruct (V_is self) as [|v vs]; [|destruct position as [|p ps]].
  - cbn. destruct position as [|[x|xs] ps]; cbn; try exact I.
    destruct (List.length xs); exact I.
  - cbn. exact I.
  - cbn [zip_with py_iter bind for_each].
    pose proof (prefactor_row_raises (state_ene v p)
                  (np_sum (Ar (state_ene v p :: zip_with state_ene vs ps))))
      as H.
    destruct (py_map2 _ _ _); [contradiction|exact I].
Qed.

(** The weights of the specification at three states of equal energy and
    equal offset are one third each, so the gradient it asks for is the mean
    of the state derivatives. *)
Lemma spec_gradient_three_equal (beta s v eoff d1 d2 d3 : R) :
  spec_gradient beta s [v; v; v] [eoff; eoff; eoff] [d1; d2; d3]
  = (d1 + d2 + d3) / 3.
Proof.
  unfold spec_gradient, spec_weight, spec_partition. cbn.
  pose proof (exp_pos (- beta * s * (v - eoff))) as He.
  set (e := spec_boltzmann_factor beta s v eoff) in *.
  change (exp (- beta * s * (v - eoff))) with e in He.
  field. lra.
Qed.

(** C1, on the code: at three harmonic states asked at the position [1] the
    routine raises instead of returning a gradient; the specification asks
    for the gradient [1]; and the prefactor that the routine computes for
    each state, [1 - Vi / sum_j Vj], is [2/3], not the weight [1/3]. *)
Theorem C1_enveloped_gradient_is_not_the_weighted_sum :
  is_raise (_calculate_dvdpos_singlePos self_ene example_potential
              example_position)
  /\ (forall beta s : R,
        spec_gradient beta s [0.5; 0.5; 0.5] [0; 0; 0] [1; 1; 1] = 1
        /\ spec_weight beta s [0.5; 0.5; 0.5] [0; 0; 0] 0.5 0 = 1 / 3)
  /\ prefactor (Sc 0.5) (Sc (np_sum (Ar [Sc 0.5; Sc 0.5; Sc 0.5])))
     = Ok (Sc (1 - 0.5 / (0.5 + (0.5 + (0.5 + 0)))))
  /\ 1 - 0.5 / (0.5 + (0.5 + (0.5 + 0))) = 2 / 3.
Proof.
  split; [apply _calculate_dvdpos_singlePos_raises|].
  split; [|split; [reflexivity|lra]].
  intros beta s. split.
  - rewrite spec_gradient_three_equal. lra.
  - unfold spec_weight, spec_partition. cbn.
    pose proof (exp_pos (- beta * s * (0.5 - 0))) as He.
    set (e := spec_boltzmann_factor beta s 0.5 0) in *.
    change (exp (- beta * s * (0.5 - 0))) with e in He.
    field. lra.
Qed.

End EnvelopedFacts.

(** ** The Langevin samplers *)

Section LangevinFacts.
Import Langevin.
Local Open Scope R_scope.

(** The position variant returns three values, which [step] unpacks: a
    call on a new sampler returns the new position, no velocity and the
    force. *)
Lemma langevinIntegrator_step_returns (dt gamma : R) (old : option R)
  (sys : system) (g : random) :
  reweighting sys = false ->
  exists self' g' new_position newForces,
    langevinIntegrator_step (__init__ dt gamma old) sys g
    = Ok (self', g', [Num new_position; NoneV; Num newForces]).
Proof.
  intros Hrw. unfold langevinIntegrator_step, step, update_positon.
  cbn. rewrite Hrw. eexists _, _, _, _. reflexivity.
Qed.

(** The velocity variant computes a position and a velocity and returns
    the two of them. *)
Lemma velocity_update_positon_returns_two (self : sampler) (sys : system)
  (g : random) (r : sampler * random * list value) :
  velocity_update_positon self sys g = Ok r ->
  exists full_step_position full_step_velocity,
    snd r = [Num full_step_position; Num full_step_velocity].
Proof.
  unfold velocity_update_positon, first_step_draw.
  destruct (_first_step self); cbn.
  - destruct (currentPosition self); cbn; [|discriminate].
    destruct (currentVelocity self); cbn; [|discriminate].
    intros H. injection H as <-. cbn. eexists _, _. reflexivity.
  - destruct (currentVelocity self); cbn; [|discriminate].
    destruct (newForces self); cbn; [|discriminate].
    destruct (R_x self); cbn; [|discriminate].
    destruct (currentPosition self); cbn; [|discriminate].
    intros H. injection H as <-. cbn. eexists _, _. reflexivity.
Qed.

(** C6, on the code: [step] of the velocity variant never returns.  It is
    the inherited [step], which unpacks three values from the two that
    [update_positon] of the velocity variant returns: on a new sampler the
    call raises that [ValueError], and on any sampler it raises. *)
Theorem C6_velocity_step_never_returns :
  (forall (self : sampler) (sys : system) (g : random),
     is_raise (langevinVelocityIntegrator_step self sys g))
  /\ forall (dt gamma : R) (old : option R) (sys : system) (g : random),
       langevinVelocityIntegrator_step (__init__ dt gamma old) sys g
       = Raise (ValueError
                  "not enough values to unpack (expected 3, got 2)").
Proof.
  split.
  - intros self sys g.
    unfold langevinVelocityIntegrator_step, step, velocity_update_positon,
      first_step_draw. cbn.
    destruct (_first_step self); cbn; [exact I|].
    destruct (newForces self); cbn; [|exact I].
    destruct (R_x self); cbn; exact I.
  - intros dt gamma old sys g. reflexivity.
Qed.

End LangevinFacts.

(** ** The Metropolis sampler *)

Section MetropolisFacts.
Import Metropolis.
Local Open Scope R_scope.

Variable gas_constant : R.

Lemma Rleb_true (x y : R) : x <= y -> Rleb x y = true.
Proof.
  intros H. unfold Rleb.
  destruct (Rle_dec x y); [reflexivity|contradiction].
Qed.

Lemma Rleb_false (x y : R) : y < x -> Rleb x y = false.
Proof. intros H. unfold Rleb. destruct (Rle_dec x y); [lra|reflexivity]. Qed.

Lemma Rltb_true (x y : R) : x < y -> Rltb x y = true.
Proof.
  intros H. unfold Rltb.
  destruct (Rlt_dec x y); [reflexivity|contradiction].
Qed.

Lemma Rltb_false (x y : R) : y <= x -> Rltb x y = false.
Proof. intros H. unfold Rltb. destruct (Rlt_dec x y); [lra|reflexivity]. Qed.

(** [random_shift] writes [posShift] and nothing else, and does not read
    it. *)
Lemma random_shift_with_posShift (self : sampler) (d : draws) :
  random_shift self d = with_posShift self (posShift (random_shift self d)).
Proof.
  unfold random_shift.
  destruct (minStepSize self); [destruct (Rltb _ _)|]; reflexivity.
Qed.

Lemma random_shift_twice (self : sampler) (d d' : draws) :
  random_shift (random_shift self d) d' = random_shift self d'.
Proof.
  rewrite (random_shift_with_posShift self d).
  generalize (posShift (random_shift self d)). intros x.
  unfold random_shift. cbn.
  destruct (minStepSize self); [destruct (Rltb _ _)|]; reflexivity.
Qed.

Lemma random_shift_with_oldpos (self : sampler) (x : R) (d : draws) :
  posShift (random_shift (with_oldpos self x) d)
  = posShift (random_shift self d).
Proof.
  unfold random_shift. cbn.
  destruct (minStepSize self); [destruct (Rltb _ _)|]; reflexivity.
Qed.

Lemma random_shift_keeps (self : sampler) (d : draws) :
  convergence_limit (random_shift self d) = convergence_limit self
  /\ maxIterationTillAccept (random_shift self d)
     = maxIterationTillAccept self
  /\ oldpos (random_shift self d) = oldpos self.
Proof.
  rewrite random_shift_with_posShift. repeat split.
Qed.

(** The proposal of a pass does not depend on the proposals before it. *)
Lemma propose_twice (self : sampler) (sys : system) (d d' : draws) :
  propose (fst (propose self sys d)) (snd (propose self sys d)) d'
  = propose self sys d'.
Proof.
  unfold propose. cbn [fst snd]. rewrite random_shift_twice. reflexivity.
Qed.

Lemma propose_fields (self : sampler) (sys : system) (d : draws) :
  _currentPosition (snd (propose self sys d))
  = oldpos self + posShift (random_shift self d)
  /\ _currentForce (snd (propose self sys d)) = posShift (random_shift self d)
  /\ posShift (fst (propose self sys d)) = posShift (random_shift self d)
  /\ current_state (snd (propose self sys d)) = current_state sys.
Proof.
  unfold propose. cbn.
  destruct (random_shift_keeps self d) as (_ & _ & ->). repeat split.
Qed.

Lemma passes_twice (self : sampler) (sys : system) (cs : state)
  (d d' : draws) :
  passes gas_constant (fst (propose self sys d)) (snd (propose self sys d))
    cs d'
  = passes gas_constant self sys cs d'.
Proof. unfold passes. rewrite propose_twice. reflexivity. Qed.

(** One pass of the loop, spelled out. *)
Lemma acceptance_loop_pass (fuel : nat) (rng : nat -> draws) (cs : state)
  (k : nat) (self : sampler) (sys : system) :
  acceptance_loop gas_constant (S fuel) rng cs k self sys
  = if int_le_bound (Z.of_nat k) (convergence_limit self)
       && int_le_bound (Z.of_nat k) (maxIterationTillAccept self)
    then
      if bound_le_int (maxIterationTillAccept self) (Z.of_nat k)
         || passes gas_constant self sys cs (rng k)
      then Left (snd (propose self sys (rng k)))
             (fst (propose self sys (rng k))) k
      else
        if int_ge_bound (Z.of_nat (S k)) (convergence_limit self)
        then Abort (snd (propose self sys (rng k)))
               (fst (propose self sys (rng k))) did_not_converge
        else acceptance_loop gas_constant fuel rng cs (S k)
               (fst (propose self sys (rng k)))
               (snd (propose self sys (rng k)))
    else Left sys self k.
Proof.
  cbn [acceptance_loop].
  destruct (int_le_bound _ _ && int_le_bound _ _); [|reflexivity].
  unfold passes, accepted, propose. cbn [fst snd].
  destruct (random_shift_keeps self (rng k)) as (-> & -> & _).
  reflexivity.
Qed.

(** A run of [n] rejected passes that neither hit the cap nor the
    convergence limit leaves the loop at the head of pass [k + n], with the
    last proposal in the sampler and in the system. *)
Lemma acceptance_loop_rejections (rng : nat -> draws) (cs : state)
  (n : nat) :
  forall (fuel k : nat) (self : sampler) (sys : system),
    (forall j, (k <= j < k + S n)%nat ->
       passes gas_constant self sys cs (rng j) = false
       /\ int_le_bound (Z.of_nat j) (convergence_limit self) = true
       /\ int_le_bound (Z.of_nat j) (maxIterationTillAccept self) = true
       /\ bound_le_int (maxIterationTillAccept self) (Z.of_nat j) = false
       /\ int_ge_bound (Z.of_nat (S j)) (convergence_limit self) = false) ->
    acceptance_loop gas_constant (S n + fuel) rng cs k self sys
    = acceptance_loop gas_constant fuel rng cs (k + S n)
        (fst (propose self sys (rng (k + n)%nat)))
        (snd (propose self sys (rng (k + n)%nat))).
Proof.
  induction n as [|n IH]; intros fuel k self sys H.
  - destruct (H k ltac:(lia)) as (Hp & Hc & Hm & Hf & Ha).
    change (1 + fuel)%nat with (S fuel).
    rewrite acceptance_loop_pass, Hc, Hm, Hf, Hp, Ha. cbn [andb orb].
    replace (k + 1)%nat with (S k) by lia.
    replace (k + 0)%nat with k by lia. reflexivity.
  - destruct (H k ltac:(lia)) as (Hp & Hc & Hm & Hf & Ha).
    change (S (S n) + fuel)%nat with (S (S n + fuel)).
    rewrite acceptance_loop_pass, Hc, Hm, Hf, Hp, Ha. cbn [andb orb].
    rewrite IH.
    + rewrite propose_twice.
      replace (S k + S n)%nat with (k + S (S n))%nat by lia.
      replace (S k + n)%nat with (k + S n)%nat by lia. reflexivity.
    + intros j Hj. rewrite passes_twice.
      unfold propose. cbn [fst].
      destruct (random_shift_keeps self (rng k)) as (-> & -> & _).
      apply H. lia.
Qed.

(** Its form for any number of passes, from the head of pass [0]. *)
Lemma acceptance_loop_skip (rng : nat -> draws) (cs : state) (n fuel : nat)
  (self : sampler) (sys : system) :
  (forall j, (j < n)%nat ->
     passes gas_constant self sys cs (rng j) = false
     /\ int_le_bound (Z.of_nat j) (convergence_limit self) = true
     /\ int_le_bound (Z.of_nat j) (maxIterationTillAccept self) = true
     /\ bound_le_int (maxIterationTillAccept self) (Z.of_nat j) = false
     /\ int_ge_bound (Z.of_nat (S j)) (convergence_limit self) = false) ->
  exists self' sys',
    acceptance_loop gas_constant (n + fuel) rng cs 0 self sys
    = acceptance_loop gas_constant fuel rng cs n self' sys'
    /\ convergence_limit self' = convergence_limit self
    /\ maxIterationTillAccept self' = maxIterationTillAccept self
    /\ (forall d, propose self' sys' d = propose self sys d).
Proof.
  intros H. destruct n as [|n].
  - exists self, sys. repeat split.
  - exists (fst (propose self sys (rng n))), (snd (propose self sys (rng n))).
    split.
    + rewrite (acceptance_loop_rejections rng cs n fuel 0 self sys).
      * reflexivity.
      * intros j Hj. apply H. lia.
    + unfold propose at 1 2. cbn [fst].
      destruct (random_shift_keeps self (rng n)) as (-> & -> & _).
      split; [reflexivity|]. split; [reflexivity|].
      intros d. apply propose_twice.
Qed.

(** The loop only depends on the head through what [propose] reads. *)
Lemma acceptance_loop_same_head (fuel : nat) (rng : nat -> draws)
  (cs : state) (k : nat) (self self' : sampler) (sys sys' : system) :
  convergence_limit self' = convergence_limit self ->
  maxIterationTillAccept self' = maxIterationTillAccept self ->
  (forall d, propose self' sys' d = propose self sys d) ->
  acceptance_loop gas_constant (S fuel) rng cs k self' sys'
  = if int_le_bound (Z.of_nat k) (convergence_limit self)
       && int_le_bound (Z.of_nat k) (maxIterationTillAccept self)
    then acceptance_loop gas_constant (S fuel) rng cs k self sys
    else Left sys' self' k.
Proof.
  intros Hc Hm Hp. rewrite !acceptance_loop_pass.
  unfold passes. rewrite Hc, Hm, !Hp.
  destruct (int_le_bound _ _ && int_le_bound _ _); reflexivity.
Qed.

(** When the loop raises, it raises the non-convergence error in the first
    pass [j] after which the counter has reached the convergence limit; that
    pass and every pass before it were rejected, and the sampler and the
    system hold the proposal of pass [j]. *)
Lemma acceptance_loop_abort (rng : nat -> draws) (cs : state) (fuel : nat) :
  forall (k : nat) (self : sampler) (sys sys' : system) (self' : sampler)
         (e : exn),
    acceptance_loop gas_constant fuel rng cs k self sys = Abort sys' self' e ->
    exists j, (k <= j < k + fuel)%nat
      /\ (forall i, (k <= i <= j)%nat ->
            passes gas_constant self sys cs (rng i) = false)
      /\ (forall i, (k <= i < j)%nat ->
            int_ge_bound (Z.of_nat (S i)) (convergence_limit self) = false)
      /\ int_ge_bound (Z.of_nat (S j)) (convergence_limit self) = true
      /\ int_le_bound (Z.of_nat j) (convergence_limit self) = true
      /\ e = did_not_converge
      /\ sys' = snd (propose self sys (rng j))
      /\ self' = fst (propose self sys (rng j)).
Proof.
  induction fuel as [|fuel IH]; intros k self sys sys' self' e H.
  - cbn in H. destruct (int_le_bound _ _ && int_le_bound _ _); discriminate.
  - rewrite acceptance_loop_pass in H.
    destruct (int_le_bound (Z.of_nat k) (convergence_limit self)) eqn:Hle;
      [|discriminate].
    destruct (int_le_bound (Z.of_nat k) (maxIterationTillAccept self));
      [|discriminate].
    cbn [andb] in H.
    destruct (bound_le_int _ _); [discriminate|]. cbn [orb] in H.
    destruct (passes gas_constant self sys cs (rng k)) eqn:Hp;
      [discriminate|].
    destruct (int_ge_bound (Z.of_nat (S k)) (convergence_limit self)) eqn:Hge.
    + injection H as <- <- <-. exists k.
      split; [lia|]. split.
      { intros i Hi. replace i with k by lia. exact Hp. }
      split; [intros i Hi; lia|]. repeat split; assumption.
    + apply IH in H.
      destruct H as (j & Hj & Hrej & Hbefore & Hat & Hhead & -> & -> & ->).
      assert (Hc1 : convergence_limit (fst (propose self sys (rng k)))
                    = convergence_limit self).
      { unfold propose. cbn [fst].
        destruct (random_shift_keeps self (rng k)) as (-> & _). reflexivity. }
      rewrite Hc1 in *. rewrite propose_twice.
      exists j. split; [lia|]. split.
      { intros i Hi. destruct (Nat.eq_dec i k) as [->|Hne]; [exact Hp|].
        rewrite <- (passes_twice self sys cs (rng k)). apply Hrej. lia. }
      split.
      { intros i Hi. destruct (Nat.eq_dec i k) as [->|Hne]; [exact Hge|].
        apply Hbefore. lia. }
      repeat split; assumption.
Qed.

(** With a finite convergence limit or a finite cap the loop ends: fuel
    beyond the bound is never used up. *)
Lemma acceptance_loop_terminates (rng : nat -> draws) (cs : state) (b : Z)
  (fuel : nat) :
  forall (k : nat) (self : sampler) (sys : system),
    convergence_limit self = Fin b \/ maxIterationTillAccept self = Fin b ->
    (b < Z.of_nat k + Z.of_nat fuel)%Z ->
    acceptance_loop gas_constant fuel rng cs k self sys <> NoFuel.
Proof.
  induction fuel as [|fuel IH]; intros k self sys Hb Hlt.
  - cbn.
    replace (int_le_bound (Z.of_nat k) (convergence_limit self)
             && int_le_bound (Z.of_nat k) (maxIterationTillAccept self))
      with false; [discriminate|].
    symmetry. apply andb_false_iff.
    destruct Hb as [-> | ->]; [left|right]; cbn; apply Z.leb_gt; lia.
  - rewrite acceptance_loop_pass.
    destruct (int_le_bound _ _ && int_le_bound _ _); [|discriminate].
    destruct (bound_le_int _ _ || passes _ _ _ _ _); [discriminate|].
    destruct (int_ge_bound _ _); [discriminate|].
    apply IH; [|lia].
    unfold propose. cbn [fst].
    destruct (random_shift_keeps self (rng k)) as (-> & -> & _).
    exact Hb.
Qed.

Lemma step_terminates (rng : nat -> draws) (self : sampler) (sys : system)
  (b : Z) (fuel : nat) :
  convergence_limit self = Fin b \/ maxIterationTillAccept self = Fin b ->
  (b < Z.of_nat fuel)%Z ->
  step gas_constant fuel rng self sys <> OutOfFuel.
Proof.
  intros Hb Hlt. unfold step.
  pose proof (acceptance_loop_terminates rng (current_state sys) b fuel 0
                (with_oldpos self (position (current_state sys))) sys Hb
                ltac:(lia)) as H.
  destruct (acceptance_loop _ _ _ _ _ _ _); [discriminate|discriminate|].
  contradiction.
Qed.

(** The forced acceptance: when the passes before the cap [m] are rejected
    and the convergence limit lets the counter reach [m], [step] returns the
    proposal of pass [m], whatever the criterion says of it. *)
Lemma step_forced_acceptance (rng : nat -> draws) (self : sampler)
  (sys : system) (m fuel : nat) :
  maxIterationTillAccept self = Fin (Z.of_nat m) ->
  limit_above_cap (convergence_limit self) m ->
  (forall j, (j < m)%nat -> rejected gas_constant self sys (rng j)) ->
  (m < fuel)%nat ->
  exists sys' self',
    step gas_constant fuel rng self sys
    = Returned sys' self'
        (position (current_state sys) + shift_of self (rng m), NaN,
         shift_of self (rng m))
    /\ _currentPosition sys'
       = position (current_state sys) + shift_of self (rng m).
Proof.
  intros Hcap Hlim Hrej Hfuel. unfold step.
  set (cs := current_state sys). set (self0 := with_oldpos self (position cs)).
  assert (Hc0 : convergence_limit self0 = convergence_limit self)
    by reflexivity.
  assert (Hm0 : maxIterationTillAccept self0 = Fin (Z.of_nat m))
    by exact Hcap.
  replace fuel with (m + S (fuel - m - 1))%nat by lia.
  destruct (acceptance_loop_skip rng cs m (S (fuel - m - 1)) self0 sys)
    as (self1 & sys1 & -> & Hc1 & Hm1 & Hp1).
  { intros j Hj. split; [apply Hrej, Hj|].
    rewrite Hc0, Hm0. unfold limit_above_cap in Hlim.
    unfold int_ge_bound. destruct (convergence_limit self) as [c|]; cbn.
    - repeat split; try apply Z.leb_le; try apply Z.leb_gt; lia.
    - repeat split; try apply Z.leb_le; try apply Z.leb_gt; lia. }
  rewrite (acceptance_loop_same_head _ _ _ _ self0 _ sys _) by assumption.
  assert (Hhead : int_le_bound (Z.of_nat m) (convergence_limit self0)
                  && int_le_bound (Z.of_nat m) (maxIterationTillAccept self0)
                  = true).
  { rewrite Hc0, Hm0. unfold limit_above_cap in Hlim.
    destruct (convergence_limit self) as [c|]; cbn;
      rewrite ?andb_true_iff; repeat split; try apply Z.leb_le; lia. }
  rewrite Hhead, acceptance_loop_pass, Hhead, Hm0. cbn [bound_le_int].
  rewrite Z.leb_refl. cbn [orb].
  destruct (propose_fields self0 sys (rng m)) as (Hpos & _ & Hshift & _).
  unfold shift_of. rewrite <- (random_shift_with_oldpos self (position cs)).
  fold self0. rewrite Hshift, Hpos.
  eexists _, _. split; [reflexivity|exact Hpos].
Qed.

(** The non-convergence: with the limit [c >= 0] and the cap off or not
    below [max c 1], when the first [max c 1] proposals are rejected,
    [step] raises after exactly that many passes. *)
Lemma step_raises_at_limit (rng : nat -> draws) (self : sampler)
  (sys : system) (c : Z) (fuel : nat) :
  convergence_limit self = Fin c ->
  (0 <= c)%Z ->
  cap_not_below (maxIterationTillAccept self) (Z.max c 1) ->
  (forall j, (Z.of_nat j < Z.max c 1)%Z ->
     rejected gas_constant self sys (rng j)) ->
  (Z.max c 1 <= Z.of_nat fuel)%Z ->
  let self0 := with_oldpos self (position (current_state sys)) in
  let last := rng (Z.to_nat (Z.max c 1) - 1)%nat in
  step gas_constant fuel rng self sys
  = Raised (snd (propose self0 sys last)) (fst (propose self0 sys last))
      did_not_converge.
Proof.
  intros Hlim Hc Hcap Hrej Hfuel self0 last. unfold step.
  fold self0. set (cs := current_state sys).
  assert (Hc0 : convergence_limit self0 = Fin c) by exact Hlim.
  assert (Hm0 : maxIterationTillAccept self0 = maxIterationTillAccept self)
    by reflexivity.
  set (n := (Z.to_nat (Z.max c 1) - 1)%nat).
  assert (Hn : Z.of_nat (S n) = Z.max c 1) by lia.
  replace fuel with (n + S (fuel - n - 1))%nat by lia.
  assert (Hbounds : forall j, (j <= n)%nat ->
            int_le_bound (Z.of_nat j) (convergence_limit self0) = true
            /\ int_le_bound (Z.of_nat j) (maxIterationTillAccept self0) = true
            /\ bound_le_int (maxIterationTillAccept self0) (Z.of_nat j)
               = false).
  { intros j Hj. rewrite Hc0, Hm0. unfold cap_not_below in Hcap.
    destruct (maxIterationTillAccept self) as [m|]; cbn;
      repeat split; try apply Z.leb_le; try apply Z.leb_gt; lia. }
  destruct (acceptance_loop_skip rng cs n (S (fuel - n - 1)) self0 sys)
    as (self1 & sys1 & -> & Hc1 & Hm1 & Hp1).
  { intros j Hj. split; [apply Hrej; lia|].
    destruct (Hbounds j ltac:(lia)) as (H1 & H2 & H3).
    repeat split; try assumption.
    rewrite Hc0. cbn. apply Z.leb_gt. lia. }
  rewrite (acceptance_loop_same_head _ _ _ _ self0 _ sys _) by assumption.
  destruct (Hbounds n ltac:(lia)) as (H1 & H2 & H3).
  rewrite H1, H2. cbn [andb].
  rewrite acceptance_loop_pass, H1, H2, H3. cbn [andb orb].
  assert (Hlast : passes gas_constant self0 sys cs (rng n) = false)
    by (apply Hrej; lia).
  rewrite Hlast, Hc0. unfold int_ge_bound. cbn [bound_le_int].
  replace (c <=? Z.of_nat (S n))%Z with true
    by (symmetry; apply Z.leb_le; lia).
  reflexivity.
Qed.

(** Under the same conditions the loop needs all of these passes: with
    fuel for fewer passes it is still running. *)
Lemma step_needs_all_passes (rng : nat -> draws) (self : sampler)
  (sys : system) (c : Z) (fuel : nat) :
  convergence_limit self = Fin c ->
  (0 <= c)%Z ->
  cap_not_below (maxIterationTillAccept self) (Z.max c 1) ->
  (forall j, (Z.of_nat j < Z.max c 1)%Z ->
     rejected gas_constant self sys (rng j)) ->
  (Z.of_nat fuel < Z.max c 1)%Z ->
  step gas_constant fuel rng self sys = OutOfFuel.
Proof.
  intros Hlim Hc Hcap Hrej Hfuel. unfold step.
  set (self0 := with_oldpos self (position (current_state sys))).
  set (cs := current_state sys).
  assert (Hc0 : convergence_limit self0 = Fin c) by exact Hlim.
  assert (Hm0 : maxIterationTillAccept self0 = maxIterationTillAccept self)
    by reflexivity.
  assert (Hbounds : forall j, (j <= fuel)%nat ->
            int_le_bound (Z.of_nat j) (convergence_limit self0) = true
            /\ int_le_bound (Z.of_nat j) (maxIterationTillAccept self0) = true
            /\ bound_le_int (maxIterationTillAccept self0) (Z.of_nat j)
               = false).
  { intros j Hj. rewrite Hc0, Hm0. unfold cap_not_below in Hcap.
    destruct (maxIterationTillAccept self) as [m|]; cbn;
      repeat split; try apply Z.leb_le; try apply Z.leb_gt; lia. }
  replace fuel with (fuel + 0)%nat at 1 by lia.
  destruct (acceptance_loop_skip rng cs fuel 0 self0 sys)
    as (self1 & sys1 & -> & Hc1 & Hm1 & _).
  { intros j Hj. split; [apply Hrej; lia|].
    destruct (Hbounds j ltac:(lia)) as (H1 & H2 & H3).
    repeat split; try assumption.
    rewrite Hc0. cbn. apply Z.leb_gt. lia. }
  destruct (Hbounds fuel ltac:(lia)) as (H1 & H2 & _).
  cbn [acceptance_loop]. rewrite Hc1, Hm1, H1, H2. reflexivity.
Qed.

Lemma _critInSpaceRange_random_shift (self : sampler) (d : draws) (x : R) :
  _critInSpaceRange (random_shift self d) x = _critInSpaceRange self x.
Proof. rewrite random_shift_with_posShift. reflexivity. Qed.

Lemma metropolis_criterion_random_shift (self : sampler) (d : draws)
  (ene_new : R) (cs : state) (rand : R) :
  metropolis_criterion gas_constant (random_shift self d) ene_new cs rand
  = metropolis_criterion gas_constant self ene_new cs rand.
Proof. rewrite random_shift_with_posShift. reflexivity. Qed.

(** A candidate energy below the current one satisfies the criterion
    before the random part is looked at. *)
Lemma metropolis_criterion_lower (self : sampler) (ene_new : R) (cs : state)
  (rand : R) :
  ene_new < total_potential_energy cs ->
  metropolis_criterion gas_constant self ene_new cs rand = true.
Proof.
  intros H. unfold metropolis_criterion. rewrite Rltb_true by exact H.
  reflexivity.
Qed.

(** A pass whose proposal passes leaves the loop with that proposal. *)
Lemma acceptance_loop_accepts (fuel : nat) (rng : nat -> draws) (cs : state)
  (k : nat) (self : sampler) (sys : system) :
  int_le_bound (Z.of_nat k) (convergence_limit self) = true ->
  int_le_bound (Z.of_nat k) (maxIterationTillAccept self) = true ->
  passes gas_constant self sys cs (rng k) = true ->
  acceptance_loop gas_constant (S fuel) rng cs k self sys
  = Left (snd (propose self sys (rng k))) (fst (propose self sys (rng k))) k.
Proof.
  intros Hc Hm Hp. rewrite acceptance_loop_pass, Hc, Hm, Hp, orb_true_r.
  reflexivity.
Qed.

(** Every proposal of the example run is outside the space range. *)
Lemma example_rejected (cap limit : bound) (k : nat) :
  rejected gas_constant (example_sampler cap limit) example_system
    (example_rng k).
Proof.
  unfold rejected, passes, propose, random_shift. cbn.
  rewrite (Rleb_false (5 + -1 * 1) (Rmax 0 1)).
  - rewrite andb_false_r. reflexivity.
  - unfold Rmax. destruct (Rle_dec 0 1); lra.
Qed.

(** In fact every proposal of the example sampler from position [5] is
    outside the space range, whatever is drawn: it is [4] or [6]. *)
Lemma example_always_rejected (cap limit : bound) (d : draws) :
  rejected gas_constant (example_sampler cap limit) example_system d.
Proof.
  unfold rejected, passes, propose, random_shift. cbn.
  assert (Hmax : Rmax 0 1 = 1) by (unfold Rmax; destruct (Rle_dec 0 1); lra).
  destruct (sign_draw d <? 50)%Z.
  - rewrite (Rleb_false (5 + -1 * 1) (Rmax 0 1)) by (rewrite Hmax; lra).
    rewrite andb_false_r. reflexivity.
  - rewrite (Rleb_false (5 + 1 * 1) (Rmax 0 1)) by (rewrite Hmax; lra).
    rewrite andb_false_r. reflexivity.
Qed.

(** C3 (amended): for a finite convergence limit [c >= 0], with
    [maxIterationTillAccept] switched off ([np.inf]) or not below
    [max c 1], when none of the first [max c 1] proposals is in the space
    range and satisfies the criterion, [step] ends by raising the
    non-convergence error after exactly [n = max c 1] passes of the loop: a
    run that may make [n] passes or more raises, with the proposal of pass
    [n - 1] (the last of these passes) in the system and in the sampler, and
    a run cut off after fewer than [n] passes has neither raised nor
    returned. *)
Theorem C3_step_raises_at_convergence_limit (rng : nat -> draws)
  (self : sampler) (sys : system) (c : Z)
  (Hlimit : convergence_limit self = Fin c)
  (Hc : (0 <= c)%Z)
  (Hcap : cap_not_below (maxIterationTillAccept self) (Z.max c 1))
  (Hrejected : forall j, (Z.of_nat j < Z.max c 1)%Z ->
     rejected gas_constant self sys (rng j)) :
  let n := Z.to_nat (Z.max c 1) in
  let self0 := with_oldpos self (position (current_state sys)) in
  let last := rng (n - 1)%nat in
  (forall fuel, (n <= fuel)%nat ->
     step gas_constant fuel rng self sys
     = Raised (snd (propose self0 sys last)) (fst (propose self0 sys last))
         did_not_converge)
  /\ (forall fuel, (fuel < n)%nat ->
        step gas_constant fuel rng self sys = OutOfFuel)
  /\ _currentPosition (snd (propose self0 sys last))
     = position (current_state sys) + shift_of self last
  /\ posShift (fst (propose self0 sys last)) = shift_of self last.
Proof.
  intros n self0 last. split; [|split].
  - intros fuel Hfuel.
    apply (step_raises_at_limit rng self sys c fuel Hlimit Hc Hcap Hrejected).
    lia.
  - intros fuel Hfuel.
    apply (step_needs_all_passes rng self sys c fuel Hlimit Hc Hcap
             Hrejected).
    lia.
  - destruct (propose_fields self0 sys last) as (Hpos & _ & Hshift & _).
    unfold shift_of.
    rewrite <- (random_shift_with_oldpos self (position (current_state sys))).
    fold self0. split; assumption.
Qed.

(** C4: in any pass of the acceptance loop, a proposal that lies in the
    space range (or meets no range) and whose energy is strictly below the
    current total potential energy satisfies the criterion for every value
    of the random draw, and the loop is left in that pass with this proposal
    in the system. *)
Theorem C4_lower_energy_is_always_accepted (fuel : nat) (rng : nat -> draws)
  (cs : state) (k : nat) (self : sampler) (sys : system)
  (Hlimit : int_le_bound (Z.of_nat k) (convergence_limit self) = true)
  (Hcap : int_le_bound (Z.of_nat k) (maxIterationTillAccept self) = true)
  (Hrange : _critInSpaceRange self (oldpos self + shift_of self (rng k))
            = true)
  (Hlower : potential_ene sys (oldpos self + shift_of self (rng k))
            < total_potential_energy cs) :
  (forall rand : R,
     metropolis_criterion gas_constant self
       (potential_ene sys (oldpos self + shift_of self (rng k))) cs rand
     = true)
  /\ exists sys' self',
       acceptance_loop gas_constant (S fuel) rng cs k self sys
       = Left sys' self' k
       /\ _currentPosition sys' = oldpos self + shift_of self (rng k)
       /\ posShift self' = shift_of self (rng k).
Proof.
  split.
  - intros rand. apply metropolis_criterion_lower, Hlower.
  - exists (snd (propose self sys (rng k))), (fst (propose self sys (rng k))).
    destruct (propose_fields self sys (rng k)) as (Hpos & _ & Hshift & _).
    split; [|split; assumption].
    apply acceptance_loop_accepts; try assumption.
    unfold passes, propose. cbn [_currentPosition potential_ene with_scratch].
    destruct (random_shift_keeps self (rng k)) as (_ & _ & ->).
    rewrite _critInSpaceRange_random_shift, metropolis_criterion_random_shift.
    fold (shift_of self (rng k)). rewrite Hrange.
    apply metropolis_criterion_lower, Hlower.
Qed.

(** C5: when the iteration counter reaches [maxIterationTillAccept]
    (the cap [m], which the convergence limit lets the counter reach) and no
    proposal before has passed, [step] stops and returns the proposal of pass
    [m], the old position plus the last shift, without asking the criterion
    about it. *)
Theorem C5_forced_acceptance_emits_last_proposal (rng : nat -> draws)
  (self : sampler) (sys : system) (m fuel : nat)
  (Hcap : maxIterationTillAccept self = Fin (Z.of_nat m))
  (Hlimit : limit_above_cap (convergence_limit self) m)
  (Hrejected : forall j, (j < m)%nat ->
     rejected gas_constant self sys (rng j))
  (Hfuel : (m < fuel)%nat) :
  exists sys' self',
    step gas_constant fuel rng self sys
    = Returned sys' self'
        (position (current_state sys) + shift_of self (rng m), NaN,
         shift_of self (rng m))
    /\ _currentPosition sys'
       = position (current_state sys) + shift_of self (rng m).
Proof.
  exact (step_forced_acceptance rng self sys m fuel Hcap Hlimit Hrejected
           Hfuel).
Qed.

(** C10: when [step] raises, it raises the non-convergence error, and the
    call is not undone: with [c] the convergence limit, the loop has made
    [max c 1] passes, each of which wrote its proposal into
    [system._currentPosition] and [system._currentForce] before testing it
    and found it rejected, and the fields (and [posShift] of the sampler)
    hold the proposal of the last of these passes, pass [j = max c 1 - 1]:
    the position before the step plus the shift of pass [j], not the
    position before the step, while the snapshot of the state before the step
    is unchanged. *)
Theorem C10_error_leaves_last_rejected_proposal (fuel : nat)
  (rng : nat -> draws) (self : sampler) (sys sys' : system)
  (self' : sampler) (e : exn)
  (Hraised : step gas_constant fuel rng self sys = Raised sys' self' e) :
  exists (j : nat) (c : Z),
    convergence_limit self = Fin c
    /\ (0 <= c)%Z
    /\ Z.of_nat (S j) = Z.max c 1
    /\ (j < fuel)%nat
    /\ (forall i, (i <= j)%nat -> rejected gas_constant self sys (rng i))
    /\ e = did_not_converge
    /\ sys' = snd (propose (with_oldpos self (position (current_state sys)))
                     sys (rng j))
    /\ self' = fst (propose (with_oldpos self (position (current_state sys)))
                      sys (rng j))
    /\ _currentPosition sys'
       = position (current_state sys) + shift_of self (rng j)
    /\ _currentForce sys' = shift_of self (rng j)
    /\ posShift self' = shift_of self (rng j)
    /\ current_state sys' = current_state sys
    /\ (shift_of self (rng j) <> 0 ->
        _currentPosition sys' <> position (current_state sys)).
Proof.
  unfold step in Hraised.
  destruct (acceptance_loop _ _ _ _ _ _ _) as [| sys1 self1 e1 |] eqn:Hloop;
    try discriminate.
  injection Hraised as -> -> ->.
  apply acceptance_loop_abort in Hloop.
  destruct Hloop as (j & Hj & Hrej & Hbefore & Hat & Hhead & -> & -> & ->).
  set (self0 := with_oldpos self (position (current_state sys))) in *.
  change (convergence_limit self0) with (convergence_limit self) in *.
  destruct (convergence_limit self) as [c|] eqn:Hlim; [|discriminate].
  unfold int_ge_bound in *. cbn [bound_le_int int_le_bound] in *.
  apply Z.leb_le in Hat, Hhead.
  assert (Hpin : Z.of_nat (S j) = Z.max c 1).
  { destruct j as [|j]; [lia|].
    specialize (Hbefore j ltac:(lia)). apply Z.leb_gt in Hbefore. lia. }
  destruct (propose_fields self0 sys (rng j)) as (H1 & H2 & H3 & H4).
  assert (Hshift : posShift (random_shift self0 (rng j))
                   = shift_of self (rng j))
    by apply random_shift_with_oldpos.
  rewrite Hshift in H1, H2, H3. cbn [oldpos with_oldpos self0] in H1.
  exists j, c. split; [reflexivity|]. split; [lia|]. split; [exact Hpin|].
  split; [lia|]. split; [intros i Hi; apply Hrej; lia|].
  split; [reflexivity|]. split; [reflexivity|]. split; [reflexivity|].
  repeat split; try assumption.
  intros Hne. rewrite H1. lra.
Qed.

End MetropolisFacts.

(** The claims of the Metropolis sampler on the example run. *)

(** With the limit [2] and the cap off, the example run on the alternating
    draws raises after its second pass and leaves the proposal [6] of that
    pass; with fuel for one pass it has not ended. *)
Lemma C3_step_raises_witness :
  Metropolis.step Metropolis.gas_constant_SI 2 Metropolis.alternating_rng
    (Metropolis.example_sampler Inf (Fin 2)) Metropolis.example_system
  = Metropolis.Raised Metropolis.example_raised_system
      Metropolis.example_raised_sampler Metropolis.did_not_converge
  /\ Metropolis.step Metropolis.gas_constant_SI 1 Metropolis.alternating_rng
       (Metropolis.example_sampler Inf (Fin 2)) Metropolis.example_system
     = Metropolis.OutOfFuel
  /\ Metropolis._currentPosition Metropolis.example_raised_system
     = (5 + 1 * 1)%R.
Proof.
  destruct (C3_step_raises_at_convergence_limit Metropolis.gas_constant_SI
              Metropolis.alternating_rng
              (Metropolis.example_sampler Inf (Fin 2))
              Metropolis.example_system 2 eq_refl ltac:(lia) I
              (fun j _ => example_always_rejected Metropolis.gas_constant_SI
                            Inf (Fin 2) (Metropolis.alternating_rng j)))
    as (Hraise & Hrun & Hpos & _).
  split; [apply (Hraise 2%nat); cbn; lia|].
  split; [apply (Hrun 1%nat); cbn; lia|].
  exact Hpos.
Defined.

(** With the convergence limit [5] and the cap [2] no proposal of the example
    run is ever in the space range, and [step] returns the third proposal
    instead of raising. *)
Lemma C3_counterexample :
  Metropolis.convergence_limit (Metropolis.example_sampler (Fin 2) (Fin 5))
  = Fin 5
  /\ (forall k, Metropolis.rejected Metropolis.gas_constant_SI
        (Metropolis.example_sampler (Fin 2) (Fin 5))
        Metropolis.example_system (Metropolis.example_rng k))
  /\ forall fuel, (2 < fuel)%nat ->
       exists sys' self',
         Metropolis.step Metropolis.gas_constant_SI fuel
           Metropolis.example_rng
           (Metropolis.example_sampler (Fin 2) (Fin 5))
           Metropolis.example_system
         = Metropolis.Returned sys' self'
             ((5 + -1 * 1)%R, Metropolis.NaN, (-1 * 1)%R).
Proof.
  split; [reflexivity|]. split; [intros k; apply example_rejected|].
  intros fuel Hfuel.
  destruct (step_forced_acceptance Metropolis.gas_constant_SI
              Metropolis.example_rng
              (Metropolis.example_sampler (Fin 2) (Fin 5))
              Metropolis.example_system 2 fuel)
    as (sys' & self' & H & _).
  - reflexivity.
  - left. reflexivity.
  - intros j _. apply example_rejected.
  - exact Hfuel.
  - eexists _, _. exact H.
Qed.

(** A sampler without space range, about to propose [4] from position [5]
    of the potential [V(r) = r]. *)
Lemma C4_lower_energy_witness :
  (forall rand : R,
     Metropolis.metropolis_criterion Metropolis.gas_constant_SI
       (Metropolis.with_oldpos
          (Metropolis.__init__ None 5 None (Some 1%R) 1.25 (Fin 10000)) 5)
       (5 + -1 * 1)%R
       (Metropolis.current_state Metropolis.example_system) rand = true)
  /\ exists sys' self',
       Metropolis.acceptance_loop Metropolis.gas_constant_SI 1
         Metropolis.example_rng
         (Metropolis.current_state Metropolis.example_system) 0
         (Metropolis.with_oldpos
            (Metropolis.__init__ None 5 None (Some 1%R) 1.25 (Fin 10000)) 5)
         Metropolis.example_system
       = Metropolis.Left sys' self' 0
       /\ Metropolis._currentPosition sys' = (5 + -1 * 1)%R
       /\ Metropolis.posShift self' = (-1 * 1)%R.
Proof.
  apply (C4_lower_energy_is_always_accepted Metropolis.gas_constant_SI 0
           Metropolis.example_rng
           (Metropolis.current_state Metropolis.example_system) 0
           (Metropolis.with_oldpos
              (Metropolis.__init__ None 5 None (Some 1%R) 1.25 (Fin 10000)) 5)
           Metropolis.example_system).
  - reflexivity.
  - reflexivity.
  - reflexivity.
  - cbn. lra.
Defined.

(** With the cap [2] and the limit off, the example run returns its
    third proposal. *)
Lemma C5_forced_acceptance_witness :
  exists sys' self',
    Metropolis.step Metropolis.gas_constant_SI 3 Metropolis.example_rng
      (Metropolis.example_sampler (Fin 2) Inf) Metropolis.example_system
    = Metropolis.Returned sys' self'
        ((5 + -1 * 1)%R, Metropolis.NaN, (-1 * 1)%R)
    /\ Metropolis._currentPosition sys' = (5 + -1 * 1)%R.
Proof.
  apply (C5_forced_acceptance_emits_last_proposal Metropolis.gas_constant_SI
           Metropolis.example_rng (Metropolis.example_sampler (Fin 2) Inf)
           Metropolis.example_system 2 3).
  - reflexivity.
  - exact I.
  - intros j _. apply example_rejected.
  - lia.
Defined.

(** With the limit [2] and the cap off, the example run on the alternating
    draws proposes [4], then [6], and raises: the system, which stood at
    [5], is left at [6], the proposal of the second and last pass. *)
Lemma C10_error_witness :
  Metropolis.step Metropolis.gas_constant_SI 2 Metropolis.alternating_rng
    (Metropolis.example_sampler Inf (Fin 2)) Metropolis.example_system
  = Metropolis.Raised Metropolis.example_raised_system
      Metropolis.example_raised_sampler Metropolis.did_not_converge
  /\ Metropolis.shift_of (Metropolis.example_sampler Inf (Fin 2))
       (Metropolis.alternating_rng 0) = (-1 * 1)%R
  /\ Metropolis._currentPosition Metropolis.example_raised_system
     = (5 + 1 * 1)%R
  /\ Metropolis._currentForce Metropolis.example_raised_system = (1 * 1)%R
  /\ Metropolis.posShift Metropolis.example_raised_sampler = (1 * 1)%R
  /\ Metropolis._currentPosition Metropolis.example_raised_system <> 5%R
  /\ Metropolis.current_state Metropolis.example_raised_system
     = Metropolis.current_state Metropolis.example_system.
Proof.
  assert (Hraised :
            Metropolis.step Metropolis.gas_constant_SI 2
              Metropolis.alternating_rng
              (Metropolis.example_sampler Inf (Fin 2))
              Metropolis.example_system
            = Metropolis.Raised Metropolis.example_raised_system
                Metropolis.example_raised_sampler
                Metropolis.did_not_converge).
  { apply (step_raises_at_limit Metropolis.gas_constant_SI
             Metropolis.alternating_rng
             (Metropolis.example_sampler Inf (Fin 2))
             Metropolis.example_system 2 2).
    - reflexivity.
    - lia.
    - exact I.
    - intros j _. apply example_always_rejected.
    - lia. }
  destruct (C10_error_leaves_last_rejected_proposal
              Metropolis.gas_constant_SI 2 Metropolis.alternating_rng
              (Metropolis.example_sampler Inf (Fin 2))
              Metropolis.example_system Metropolis.example_raised_system
              Metropolis.example_raised_sampler Metropolis.did_not_converge
              Hraised)
    as (j & c & Hlim & _ & Hpin & _ & _ & _ & _ & _ & Hpos & Hforce & Hshift
        & Hcs & Hmoved).
  injection Hlim as <-.
  assert (Hj : j = 1%nat) by lia. subst j.
  split; [exact Hraised|]. split; [reflexivity|].
  split; [exact Hpos|]. split; [exact Hforce|]. split; [exact Hshift|].
  split; [|exact Hcs].
  apply Hmoved. cbn. lra.
Defined.

(** * Further properties of the potentials *)

Section RealFacts.
Local Open Scope R_scope.

Lemma exp_le_1 (x : R) : x <= 0 -> exp x <= 1.
Proof.
  intros [H| ->].
  - rewrite <- exp_0. left. apply exp_increasing, H.
  - rewrite exp_0. lra.
Qed.

End RealFacts.

Section SimplePotentialFacts.
Local Open Scope R_scope.

(** X1: the Coulomb energy is the same when the two charges are exchanged,
    changes its sign with the position, and is positive for charges of equal
    sign at a positive distance in a medium of positive permittivity. *)
Theorem X1_coulomb_symmetries (q1 q2 epsilon r : R)
  (Hr : 0 < r) (Heps : 0 < epsilon) :
  Coulomb.V_functional q1 q2 epsilon r = Coulomb.V_functional q2 q1 epsilon r
  /\ Coulomb.V_functional q1 q2 epsilon (- r)
     = - Coulomb.V_functional q1 q2 epsilon r
  /\ (0 < q1 * q2 -> 0 < Coulomb.V_functional q1 q2 epsilon r).
Proof.
  pose proof PI_RGT_0 as Hpi. unfold Coulomb.V_functional.
  assert (Hd : 0 < r * epsilon * 4 * PI).
  { apply Rmult_lt_0_compat; [|exact Hpi].
    apply Rmult_lt_0_compat; [|lra].
    apply Rmult_lt_0_compat; assumption. }
  split; [|split].
  - f_equal. ring.
  - field. repeat split; lra.
  - intros Hq. apply Rdiv_lt_0_compat; assumption.
Qed.

(** X2: the Lennard-Jones energy is [y_shift] at the distance [sigma] from
    [x_shift], and with [epsilon >= 0] it is nowhere (away from the
    singularity at [x_shift]) below [y_shift - epsilon]. *)
Theorem X2_lennard_jones_zero_and_depth (sigma epsilon x_shift y_shift r : R)
  (Hsigma : sigma <> 0) (Heps : 0 <= epsilon) (Hr : r <> x_shift) :
  LennardJones.V_functional sigma epsilon x_shift y_shift (x_shift + sigma)
  = y_shift
  /\ y_shift - epsilon
     <= LennardJones.V_functional sigma epsilon x_shift y_shift r.
Proof.
  unfold LennardJones.V_functional. split.
  - replace (x_shift + sigma - x_shift) with sigma by ring.
    replace (sigma / sigma) with 1 by (field; exact Hsigma).
    rewrite !pow1. ring.
  - set (t := (sigma / (r - x_shift)) ^ 6).
    replace ((sigma / (r - x_shift)) ^ 12) with (t * t)
      by (unfold t; ring).
    pose proof (Rle_0_sqr (2 * t - 1)) as Hsq. unfold Rsqr in Hsq.
    nra.
Qed.

(** X3: with [b <> 0] the double well is zero at its two minima
    [a/2 - b] and [a/2 + b], is [Vmax] on the barrier at [a/2], is
    mirror-symmetric about [a/2], and with [Vmax >= 0] it is nowhere
    negative. *)
Theorem X3_double_well_shape (Vmax a b r : R) (Hb : b <> 0) :
  DoubleWell.V_functional Vmax a b (a / 2 - b) = 0
  /\ DoubleWell.V_functional Vmax a b (a / 2 + b) = 0
  /\ DoubleWell.V_functional Vmax a b (a / 2) = Vmax
  /\ DoubleWell.V_functional Vmax a b (a / 2 + r)
     = DoubleWell.V_functional Vmax a b (a / 2 - r)
  /\ (0 <= Vmax -> 0 <= DoubleWell.V_functional Vmax a b r).
Proof.
  unfold DoubleWell.V_functional. repeat split.
  - field. exact Hb.
  - field. exact Hb.
  - field. exact Hb.
  - field. exact Hb.
  - intros HV. apply Rmult_le_pos.
    + apply Rmult_le_pos; [exact HV|].
      left. apply Rinv_0_lt_compat.
      replace (b ^ 4) with ((b * b) * (b * b)) by ring.
      assert (0 < b * b) by nra. nra.
    + apply pow2_ge_0.
Qed.

(** X4: with [sigma <> 0] the Gaussian potential is [A] at [mu], is
    mirror-symmetric about [mu], and with [A >= 0] it lies between [0] and
    [A] everywhere. *)
Theorem X4_gauss_peak_and_bounds (A mu sigma r : R) (Hsigma : sigma <> 0) :
  Gauss.V_functional A mu sigma mu = A
  /\ Gauss.V_functional A mu sigma (mu + r)
     = Gauss.V_functional A mu sigma (mu - r)
  /\ (0 <= A -> 0 <= Gauss.V_functional A mu sigma r <= A).
Proof.
  unfold Gauss.V_functional. repeat split.
  - replace (- (mu - mu) ^ 2 / (2 * sigma ^ 2)) with 0
      by (field; exact Hsigma).
    rewrite exp_0. ring.
  - f_equal. f_equal. field. exact Hsigma.
  - pose proof (exp_pos (- (r - mu) ^ 2 / (2 * sigma ^ 2))). nra.
  - assert (Hx : - (r - mu) ^ 2 / (2 * sigma ^ 2) <= 0).
    { assert (0 < 2 * sigma ^ 2) by (simpl; nra).
      assert (0 <= (r - mu) ^ 2) by apply pow2_ge_0.
      apply Rmult_le_reg_r with (2 * sigma ^ 2); [assumption|].
      replace (- (r - mu) ^ 2 / (2 * sigma ^ 2) * (2 * sigma ^ 2))
        with (- (r - mu) ^ 2) by (field; exact Hsigma).
      lra. }
    pose proof (exp_le_1 _ Hx).
    pose proof (exp_pos (- (r - mu) ^ 2 / (2 * sigma ^ 2))). nra.
Qed.

(** X6: a wave potential, in degrees or in radians, reports energies within
    [|amplitude|] of [y_shift]; with [multiplicity <> 0] its energy has the
    period [360 / multiplicity] in degrees and [2 pi / multiplicity] in
    radians. *)
Theorem X6_wave_bounded_and_periodic
  (amplitude multiplicity phase_shift y_shift : R) (radians : bool)
  (positions : R) (Hm : multiplicity <> 0) :
  let w := Wave.__init__ amplitude multiplicity phase_shift y_shift radians in
  Rabs (Wave.energies w positions - y_shift) <= Rabs amplitude
  /\ Wave.energies w
       (positions + (if radians then 2 * PI else 360) / multiplicity)
     = Wave.energies w positions.
Proof.
  assert (Hcos : forall x, cos (x + 2 * PI) = cos x).
  { intros x. rewrite cos_plus, cos_2PI, sin_2PI. ring. }
  assert (Hbound : forall x,
            Rabs (amplitude * cos x + y_shift - y_shift) <= Rabs amplitude).
  { intros x. replace (amplitude * cos x + y_shift - y_shift)
      with (amplitude * cos x) by ring.
    rewrite Rabs_mult. pose proof (COS_bound x) as [H1 H2].
    pose proof (Rabs_pos amplitude).
    assert (Rabs (cos x) <= 1) by (apply Rabs_le; lra). nra. }
  destruct radians; cbn; unfold Wave.V_functional, Wave.deg2rad; cbn.
  - split; [apply Hbound|].
    replace (multiplicity * (positions + 2 * PI / multiplicity + phase_shift))
      with (multiplicity * (positions + phase_shift) + 2 * PI)
      by (field; exact Hm).
    rewrite Hcos. reflexivity.
  - split; [apply Hbound|].
    replace (multiplicity
             * ((positions + 360 / multiplicity) * (PI / 180) + phase_shift))
      with (multiplicity * (positions * (PI / 180) + phase_shift) + 2 * PI)
      by (field; exact Hm).
    rewrite Hcos. reflexivity.
Qed.

End SimplePotentialFacts.

Lemma X1_coulomb_witness :
  Coulomb.V_functional 1 1 1 1 = Coulomb.V_functional 1 1 1 1
  /\ Coulomb.V_functional 1 1 1 (- 1) = (- Coulomb.V_functional 1 1 1 1)%R
  /\ ((0 < 1 * 1)%R -> (0 < Coulomb.V_functional 1 1 1 1)%R).
Proof. apply (X1_coulomb_symmetries 1 1 1 1); lra. Defined.

Lemma X2_lennard_jones_witness :
  LennardJones.V_functional 1.5 2 0 0 (0 + 1.5) = 0%R
  /\ (0 - 2 <= LennardJones.V_functional 1.5 2 0 0 1)%R.
Proof. apply (X2_lennard_jones_zero_and_depth 1.5 2 0 0 1); lra. Defined.

Lemma X3_double_well_witness :
  DoubleWell.V_functional 5 (-1) 1 (-1 / 2 - 1) = 0%R
  /\ DoubleWell.V_functional 5 (-1) 1 (-1 / 2 + 1) = 0%R
  /\ DoubleWell.V_functional 5 (-1) 1 (-1 / 2) = 5%R
  /\ DoubleWell.V_functional 5 (-1) 1 (-1 / 2 + 3)
     = DoubleWell.V_functional 5 (-1) 1 (-1 / 2 - 3)
  /\ ((0 <= 5)%R -> (0 <= DoubleWell.V_functional 5 (-1) 1 3)%R).
Proof. apply (X3_double_well_shape 5 (-1) 1 3); lra. Defined.

Lemma X4_gauss_witness :
  Gauss.V_functional 1 0 1 0 = 1%R
  /\ Gauss.V_functional 1 0 1 (0 + 2) = Gauss.V_functional 1 0 1 (0 - 2)
  /\ ((0 <= 1)%R -> (0 <= Gauss.V_functional 1 0 1 2 <= 1)%R).
Proof. apply (X4_gauss_peak_and_bounds 1 0 1 2); lra. Defined.

Lemma X6_wave_witness :
  (Rabs (Wave.energies Wave.default 90 - 0.0) <= Rabs 1.0)%R
  /\ Wave.energies Wave.default (90 + 360 / 1.0)
     = Wave.energies Wave.default 90.
Proof.
  apply (X6_wave_bounded_and_periodic 1.0 1.0 0.0 0.0 false 90). lra.
Defined.

(** * Further properties of the couplings *)

Section CouplingFacts.
Local Open Scope R_scope.

Variable gas_constant : R.

(** X7: the linear coupling is [Va] at [lam = 0] and [Vb] at [lam = 1],
    and for [lam] between [0] and [1] it lies between the two state
    energies. *)
Theorem X7_linear_coupling_interpolates (lam Va Vb : R)
  (Hlam : 0 <= lam <= 1) :
  LinearCoupled.coupling 0 Va Vb = Va
  /\ LinearCoupled.coupling 1 Va Vb = Vb
  /\ Rmin Va Vb <= LinearCoupled.coupling lam Va Vb <= Rmax Va Vb.
Proof.
  unfold LinearCoupled.coupling. split; [ring|]. split; [ring|].
  unfold Rmin, Rmax. destruct (Rle_dec Va Vb); split; nra.
Qed.

(** X10: the setters of the exponentially coupled potential give the
    potential that the constructor gives with the new value: the same
    constants and the same energy at every position, after [set_s] alone,
    after [set_Eoff] alone, and after both in either order; [set_Eoff] with
    fewer than two offsets raises. *)
Theorem X10_exponential_setters_match_constructor
  (Va Vb : Potential.potential1D) (eoffA eoffB s temp s' a b : R)
  (rest : list R) :
  let p := ExpCoupled.__init__ Va Vb eoffA eoffB s temp in
  let same (q q' : ExpCoupled.exponentialCoupledPotentials) :=
    ExpCoupled.constants_ q = ExpCoupled.constants_ q'
    /\ ExpCoupled.compiled q = ExpCoupled.constants_ q
    /\ forall r, ExpCoupled.ene gas_constant q r
                 = ExpCoupled.ene gas_constant q' r in
  same (ExpCoupled.set_s p s')
    (ExpCoupled.__init__ Va Vb eoffA eoffB s' temp)
  /\ (exists p1,
        ExpCoupled.set_Eoff p (a :: b :: rest) = Ok p1
        /\ same p1 (ExpCoupled.__init__ Va Vb a b s temp)
        /\ same (ExpCoupled.set_s p1 s')
             (ExpCoupled.__init__ Va Vb a b s' temp))
  /\ (exists p2,
        ExpCoupled.set_Eoff (ExpCoupled.set_s p s') (a :: b :: rest) = Ok p2
        /\ same p2 (ExpCoupled.__init__ Va Vb a b s' temp))
  /\ is_raise (ExpCoupled.set_Eoff p [a])
  /\ is_raise (ExpCoupled.set_Eoff p []).
Proof.
  intros p same. unfold same.
  split; [repeat split|].
  split; [eexists; split; [reflexivity|]; repeat split|].
  split; [eexists; split; [reflexivity|]; repeat split|].
  split; exact I.
Qed.

End CouplingFacts.

Lemma X7_linear_coupling_witness :
  LinearCoupled.coupling 0 1 3 = 1%R
  /\ LinearCoupled.coupling 1 1 3 = 3%R
  /\ (Rmin 1 3 <= LinearCoupled.coupling 0.5 1 3 <= Rmax 1 3)%R.
Proof. apply (X7_linear_coupling_interpolates 0.5 1 3). lra. Defined.

(** * Further properties of the flat well, the dummy potential and the
      conditions *)

Section FlatWellMoreFacts.
Import FlatWell.
Local Open Scope Q_scope.

Lemma atleast_1d_squeeze {A : Type} (l : list A) :
  atleast_1d (squeeze (Array1 l)) = l.
Proof. destruct l as [|a [|b l]]; reflexivity. Qed.

(** X11: in a flat well built from a non-empty [x_range] the well is not
    empty ([x_min <= x_max]) and its two boundaries belong to it: there the
    energy is [y_min] while the force is [+inf]. *)
Theorem X11_flatwell_boundaries_inside
  (x_range : list Q) (ymax ymin : Q) (self : flatwellPotential)
  (Hinit : __init__ x_range ymax ymin = Ok self) :
  x_min self <= x_max self
  /\ _calculate_energies self (Scalar (x_min self)) = Scalar ymin
  /\ _calculate_energies self (Scalar (x_max self)) = Scalar ymin
  /\ _calculate_dVdpos self (Scalar (x_min self)) = Scalar PosInf
  /\ _calculate_dVdpos self (Scalar (x_max self)) = Scalar PosInf.
Proof.
  unfold __init__ in Hinit.
  destruct x_range as [|x xs]; [discriminate|].
  injection Hinit as <-.
  assert (Hle : py_min x xs <= py_max x xs).
  { eapply Qle_trans; [apply py_min_le_acc|apply py_max_ge_acc]. }
  unfold _calculate_energies, _calculate_dVdpos.
  cbn [squeeze atleast_1d map x_min x_max].
  split; [exact Hle|].
  split; [rewrite energy_at_inside;
          [reflexivity|cbn; split; [apply Qle_refl|exact Hle]]|].
  split; [rewrite energy_at_inside;
          [reflexivity|cbn; split; [exact Hle|apply Qle_refl]]|].
  split; rewrite dVdpos_at_boundary; try reflexivity; cbn;
    [left|right]; reflexivity.
Qed.

(** X12: the evaluators of the flat well work entry by entry on every
    shape of input, a scalar, a batch of one and a longer or empty batch,
    and return as many entries as they are given; building a flat well from
    an empty [x_range] raises. *)
Theorem X12_flatwell_entrywise (self : flatwellPotential) (v : ndarray Q)
  (ymax ymin : Q) :
  atleast_1d (_calculate_energies self v)
  = map (energy_at self) (atleast_1d v)
  /\ atleast_1d (_calculate_dVdpos self v)
     = map (dVdpos_at self) (atleast_1d v)
  /\ List.length (atleast_1d (_calculate_energies self v))
     = List.length (atleast_1d v)
  /\ is_raise (__init__ [] ymax ymin).
Proof.
  unfold _calculate_energies, _calculate_dVdpos.
  rewrite !atleast_1d_squeeze.
  assert (H : atleast_1d (squeeze v) = atleast_1d v).
  { destruct v as [a|l]; [reflexivity|apply atleast_1d_squeeze]. }
  rewrite H, length_map. repeat split.
Qed.

End FlatWellMoreFacts.

Section DummyFacts.
Import FlatWell Dummy.
Local Open Scope Q_scope.

(** X13: on a batch of [n] positions the dummy potential returns [n] times
    [y_shift] as energies and [n] zeros as derivatives, whatever the
    positions are; on a bare number both evaluators raise a [TypeError],
    because they take [len(positions)]. *)
Theorem X13_dummy_constant_on_batches (self : dummyPotential)
  (l : list Q) (x : Q) :
  (exists e f,
     _calculate_energies self (Array1 l) = Ok e
     /\ _calculate_dVdpos self (Array1 l) = Ok f
     /\ atleast_1d e = repeat (y_shift self) (List.length l)
     /\ atleast_1d f = repeat 0 (List.length l))
  /\ is_raise (_calculate_energies self (Scalar x))
  /\ is_raise (_calculate_dVdpos self (Scalar x)).
Proof.
  split; [|split; exact I].
  eexists _, _. split; [reflexivity|]. split; [reflexivity|].
  split; apply atleast_1d_squeeze.
Qed.

End DummyFacts.

Section ConditionsFacts.
Import Conditions.

(** X14: [_conditionCls.__init__] and [_conditionCls.apply] never raise the
    [NotImplementedError] they name: building its message adds the class
    object [__class__] to a string, which raises a [TypeError] first, for
    every system passed. *)
Theorem X14_conditions_raise_type_error (sys : Type) (s : sys) :
  (exists msg, __init__ sys s = Earlier (TypeError msg))
  /\ (exists msg, apply = Earlier (TypeError msg))
  /\ (forall msg, __init__ sys s <> NotImplementedError msg)
  /\ (forall msg, apply <> NotImplementedError msg).
Proof.
  split; [eexists; reflexivity|]. split; [eexists; reflexivity|].
  split; intros msg; discriminate.
Qed.

End ConditionsFacts.

Lemma X11_flatwell_witness :
  (FlatWell.x_min (FlatWell.mkFlatwell 0 1 1000 0)
   <= FlatWell.x_max (FlatWell.mkFlatwell 0 1 1000 0))%Q
  /\ FlatWell._calculate_energies (FlatWell.mkFlatwell 0 1 1000 0)
       (FlatWell.Scalar 0%Q) = FlatWell.Scalar 0%Q
  /\ FlatWell._calculate_energies (FlatWell.mkFlatwell 0 1 1000 0)
       (FlatWell.Scalar 1%Q) = FlatWell.Scalar 0%Q
  /\ FlatWell._calculate_dVdpos (FlatWell.mkFlatwell 0 1 1000 0)
       (FlatWell.Scalar 0%Q) = FlatWell.Scalar FlatWell.PosInf
  /\ FlatWell._calculate_dVdpos (FlatWell.mkFlatwell 0 1 1000 0)
       (FlatWell.Scalar 1%Q) = FlatWell.Scalar FlatWell.PosInf.
Proof.
  apply (X11_flatwell_boundaries_inside [0%Q; 1%Q] 1000 0
           (FlatWell.mkFlatwell 0 1 1000 0)).
  reflexivity.
Defined.

(** * Further properties of the Monte Carlo samplers *)

Section StochasticMoreFacts.
Import Metropolis.
Local Open Scope R_scope.

Variable gas_constant : R.

Lemma Rabs_signed (z : Z) (x : R) :
  Rabs ((if (z <? 50)%Z then -1 else 1) * x) = Rabs x.
Proof.
  destruct (z <? 50)%Z.
  - replace (-1 * x) with (- x) by ring. apply Rabs_Ropp.
  - replace (1 * x) with x by ring. reflexivity.
Qed.

(** X15: with a minimal step size [m >= 0] the shift that [random_shift]
    draws is never shorter than [m], whatever the step policy and the
    draws. *)
Theorem X15_random_shift_respects_minimal_step (self : sampler) (d : draws)
  (m : R) (Hmin : minStepSize self = Some m) (Hm : 0 <= m) :
  m <= Rabs (shift_of self d).
Proof.
  unfold shift_of, random_shift. rewrite Hmin.
  match goal with |- context [Rltb ?a m] => set (shift := a) end.
  unfold Rltb at 1. destruct (Rlt_dec shift m) as [Hlt|Hge]; cbn.
  - rewrite Rltb_false by lra. rewrite Rabs_signed, Rabs_right; lra.
  - rewrite Rabs_signed. apply Rle_trans with shift; [lra|apply Rle_abs].
Qed.

(** X16: without a minimal step size the length of the shift follows the
    precedence of the step policies: a fixed step size decides it even when
    a space range is set; else a space range makes it a multiple of the
    resolution; else it is the coefficient times the uniform draw. *)
Theorem X16_random_shift_policy_precedence (self : sampler) (d : draws)
  (Hmin : minStepSize self = None) :
  (forall f, fixedStepSize self = Some f -> Rabs (shift_of self d) = Rabs f)
  /\ (fixedStepSize self = None ->
      forall range, spaceRange self = Some range ->
        Rabs (shift_of self d)
        = IZR (Z.abs (grid_draw d)) * Rabs (resolution self))
  /\ (fixedStepSize self = None -> spaceRange self = None ->
      Rabs (shift_of self d)
      = Rabs (step_size_coefficient self) * Rabs (unit_draw d)).
Proof.
  unfold shift_of, random_shift. rewrite Hmin. cbn. repeat split.
  - intros f ->. apply Rabs_signed.
  - intros -> range ->. rewrite Rabs_signed, Rabs_mult, Rabs_Rabsolu.
    rewrite <- abs_IZR. reflexivity.
  - intros -> ->. rewrite Rabs_signed, Rabs_mult, Rabs_Rabsolu. reflexivity.
Qed.

(** X17: an uphill or level proposal is rejected whenever the draw times
    the randomness factor exceeds [1]: with a positive gas constant and a
    positive temperature the Boltzmann factor is at most [1]. *)
Theorem X17_metropolis_rejects_uphill_above_one (self : sampler)
  (ene_new : R) (cs : state) (rand : R)
  (Hgas : 0 < gas_constant) (Htemp : 0 < temperature cs)
  (Huphill : total_potential_energy cs <= ene_new)
  (Hdraw : 1 < _randomness_factor self * rand) :
  metropolis_criterion gas_constant self ene_new cs rand = false.
Proof.
  unfold metropolis_criterion, _default_randomness.
  rewrite Rltb_false by exact Huphill. cbn [orb].
  apply Rleb_false.
  eapply Rle_lt_trans; [|exact Hdraw].
  apply exp_le_1.
  assert (Hden : 0 < gas_constant / 1000.0 * temperature cs).
  { apply Rmult_lt_0_compat; [|exact Htemp]. lra. }
  assert (Hcoef : -1.0 / (gas_constant / 1000.0 * temperature cs) < 0).
  { unfold Rdiv. pose proof (Rinv_0_lt_compat _ Hden). nra. }
  nra.
Qed.

(** When the loop is left from a head that it enters, it is left by the
    [break] of some pass: the sampler and the system hold the proposal of
    that pass, which passed or met the cap, and every pass before it was
    rejected. *)
Lemma acceptance_loop_left (rng : nat -> draws) (cs : state) (fuel : nat) :
  forall (k : nat) (self : sampler) (sys sys' : system) (self' : sampler)
         (k' : nat),
    int_le_bound (Z.of_nat k) (convergence_limit self)
    && int_le_bound (Z.of_nat k) (maxIterationTillAccept self) = true ->
    acceptance_loop gas_constant fuel rng cs k self sys = Left sys' self' k' ->
    (k <= k' < k + fuel)%nat
    /\ sys' = snd (propose self sys (rng k'))
    /\ self' = fst (propose self sys (rng k'))
    /\ (bound_le_int (maxIterationTillAccept self) (Z.of_nat k') = true
        \/ passes gas_constant self sys cs (rng k') = true)
    /\ forall i, (k <= i < k')%nat ->
         passes gas_constant self sys cs (rng i) = false.
Proof.
  induction fuel as [|fuel IH]; intros k self sys sys' self' k' Hhead H.
  - cbn in H. rewrite Hhead in H. discriminate.
  - rewrite acceptance_loop_pass, Hhead in H.
    destruct (bound_le_int (maxIterationTillAccept self) (Z.of_nat k))
      eqn:Hcap.
    + injection H as <- <- <-. repeat split; try lia; auto.
    + cbn [orb] in H.
      destruct (passes gas_constant self sys cs (rng k)) eqn:Hp.
      * injection H as <- <- <-. repeat split; try lia; auto.
      * destruct (int_ge_bound (Z.of_nat (S k)) (convergence_limit self))
          eqn:Hge; [discriminate|].
        apply IH in H.
        -- destruct H as (Hk & -> & -> & Hlast & Hbefore).
           rewrite !propose_twice, ?passes_twice in *.
           unfold propose in Hlast. cbn [fst] in Hlast.
           destruct (random_shift_keeps self (rng k)) as (_ & Em & _).
           rewrite ?Em in Hlast.
           repeat split; try lia; [exact Hlast|].
           intros i Hi. destruct (Nat.eq_dec i k) as [->|Hne];
             [exact Hp|].
           rewrite <- (passes_twice gas_constant self sys cs (rng k) (rng i)).
           apply Hbefore. lia.
        -- unfold propose. cbn [fst].
           destruct (random_shift_keeps self (rng k)) as (-> & -> & _).
           unfold int_ge_bound in Hge. apply andb_true_iff.
           destruct (convergence_limit self), (maxIterationTillAccept self);
             cbn in *; rewrite ?Z.leb_le, ?Z.leb_gt in *; split;
             try reflexivity; lia.
Qed.

(** X18: when [step] of the Metropolis sampler returns from a loop that it
    entered, it returns the proposal of one pass [j], the position before
    the step plus the shift of that pass, with [nan] as velocity and the
    shift as third entry; that proposal is also what the system holds.
    Every pass before [j] was rejected, and pass [j] passed the space range
    and the criterion or had reached [maxIterationTillAccept]. *)
Theorem X18_metropolis_returns_accepted_or_forced (fuel : nat)
  (rng : nat -> draws) (self : sampler) (sys sys' : system)
  (self' : sampler) (p sh : R) (v : number)
  (Hlimit : int_le_bound 0 (convergence_limit self) = true)
  (Hcap : int_le_bound 0 (maxIterationTillAccept self) = true)
  (Hret : step gas_constant fuel rng self sys
          = Returned sys' self' (p, v, sh)) :
  v = NaN
  /\ exists j, (j < fuel)%nat
       /\ sh = shift_of self (rng j)
       /\ p = position (current_state sys) + sh
       /\ _currentPosition sys' = p
       /\ _currentForce sys' = sh
       /\ (forall i, (i < j)%nat -> rejected gas_constant self sys (rng i))
       /\ (bound_le_int (maxIterationTillAccept self) (Z.of_nat j) = true
           \/ passes gas_constant
                (with_oldpos self (position (current_state sys))) sys
                (current_state sys) (rng j) = true).
Proof.
  unfold step in Hret.
  set (self0 := with_oldpos self (position (current_state sys))) in *.
  destruct (acceptance_loop _ _ _ _ _ _ _) as [sys1 self1 k| |] eqn:Hloop;
    try discriminate.
  injection Hret as <- <- <- <- <-.
  apply acceptance_loop_left in Hloop.
  - destruct Hloop as (Hk & -> & -> & Hlast & Hbefore).
    destruct (propose_fields self0 sys (rng k)) as (H1 & H2 & H3 & _).
    split; [reflexivity|]. exists k.
    unfold shift_of.
    rewrite <- (random_shift_with_oldpos self (position (current_state sys))).
    fold self0. rewrite H1, H2, H3. cbn [oldpos with_oldpos self0].
    repeat split; try assumption; try lia.
    intros i Hi. apply Hbefore. lia.
  - change (convergence_limit self0) with (convergence_limit self).
    change (maxIterationTillAccept self0) with (maxIterationTillAccept self).
    change (Z.of_nat 0) with 0%Z. rewrite Hlimit, Hcap. reflexivity.
Qed.

(** X19: with a negative convergence limit or a negative cap the loop of
    [step] is never entered: no shift is drawn, and [step] returns the
    scratch position of the system and the shift of an earlier call as if a
    step had been made, for every amount of fuel. *)
Theorem X19_metropolis_negative_limit_skips_loop (fuel : nat)
  (rng : nat -> draws) (self : sampler) (sys : system)
  (Hneg : int_le_bound 0 (convergence_limit self)
          && int_le_bound 0 (maxIterationTillAccept self) = false) :
  exists self',
    step gas_constant fuel rng self sys
    = Returned sys self' (_currentPosition sys, NaN, posShift self).
Proof.
  unfold step. destruct fuel as [|fuel].
  - cbn. change (Z.of_nat 0) with 0%Z.
    cbn in Hneg. rewrite Hneg. eexists. reflexivity.
  - rewrite acceptance_loop_pass.
    change (Z.of_nat 0) with 0%Z. cbn in Hneg |- *. rewrite Hneg.
    eexists. reflexivity.
Qed.

End StochasticMoreFacts.

Section MonteCarloFacts.
Import Metropolis MonteCarlo.
Local Open Scope R_scope.

Lemma mc_propose_fields (self : sampler) (d : draws) :
  posShift (MonteCarlo.propose self d) = shift_of self d
  /\ newPos (MonteCarlo.propose self d) = oldpos self + shift_of self d
  /\ oldpos (MonteCarlo.propose self d) = oldpos self
  /\ (forall x, _critInSpaceRange (MonteCarlo.propose self d) x
                = _critInSpaceRange self x)
  /\ (forall d', shift_of (MonteCarlo.propose self d) d' = shift_of self d').
Proof.
  unfold MonteCarlo.propose, shift_of.
  rewrite (random_shift_with_posShift self d).
  generalize (posShift (random_shift self d)). intros x.
  repeat split.
  intros d'. unfold random_shift. cbn.
  destruct (minStepSize self); [destruct (Rltb _ _)|]; reflexivity.
Qed.

Lemma random_shift_in_range_oldpos (self : sampler) (sys : system)
  (d : draws) :
  let self0 := with_oldpos self (position (current_state sys)) in
  _critInSpaceRange self0 (oldpos self0 + shift_of self0 d)
  = _critInSpaceRange self
      (position (current_state sys) + shift_of self d).
Proof.
  cbn. unfold shift_of. rewrite random_shift_with_oldpos. reflexivity.
Qed.

(** What the search returns is the first proposal in the space range. *)
Lemma search_some (rng : nat -> draws) (fuel : nat) :
  forall (k : nat) (self self' : sampler),
    search fuel rng k self = Some self' ->
    exists j, (k <= j < k + fuel)%nat
      /\ posShift self' = shift_of self (rng j)
      /\ newPos self' = oldpos self + shift_of self (rng j)
      /\ _critInSpaceRange self (oldpos self + shift_of self (rng j)) = true
      /\ forall i, (k <= i < j)%nat ->
           _critInSpaceRange self (oldpos self + shift_of self (rng i))
           = false.
Proof.
  induction fuel as [|fuel IH]; intros k self self' H; [discriminate|].
  cbn [search] in H.
  destruct (mc_propose_fields self (rng k)) as (H1 & H2 & H3 & H4 & H5).
  rewrite H4, H2 in H.
  destruct (_critInSpaceRange self (oldpos self + shift_of self (rng k)))
    eqn:Hin.
  - injection H as <-. exists k. repeat split; try lia; try assumption.
  - apply IH in H. destruct H as (j & Hj & Hs & Hn & Hc & Hb).
    rewrite H5, H3 in *. rewrite H4 in Hc.
    exists j. repeat split; try lia; try assumption.
    intros i Hi. destruct (Nat.eq_dec i k) as [->|Hne]; [exact Hin|].
    rewrite <- H4, <- H5. apply Hb. lia.
Qed.

(** While the proposals are outside the space range the search goes on. *)
Lemma search_skip (rng : nat -> draws) (n : nat) :
  forall (fuel k : nat) (self : sampler),
    (forall i, (k <= i < k + n)%nat ->
       _critInSpaceRange self (oldpos self + shift_of self (rng i)) = false) ->
    exists self1,
      search (n + fuel) rng k self = search fuel rng (k + n) self1
      /\ oldpos self1 = oldpos self
      /\ (forall x, _critInSpaceRange self1 x = _critInSpaceRange self x)
      /\ (forall d, shift_of self1 d = shift_of self d).
Proof.
  induction n as [|n IH]; intros fuel k self H.
  - exists self. replace (k + 0)%nat with k by lia. repeat split.
  - destruct (mc_propose_fields self (rng k)) as (H1 & H2 & H3 & H4 & H5).
    cbn [Nat.add search]. rewrite H4, H2, (H k) by lia.
    destruct (IH fuel (S k) (MonteCarlo.propose self (rng k)))
      as (self1 & E & Ho & Hc & Hs).
    + intros i Hi. rewrite H4, H5, H3. apply H. lia.
    + exists self1. rewrite E.
      replace (S k + n)%nat with (k + S n)%nat by lia.
      repeat split.
      * congruence.
      * intros x. rewrite Hc. apply H4.
      * intros d. rewrite Hs. apply H5.
Qed.

(** X20: what [step] of the plain Monte Carlo sampler returns is the first
    proposal that lies in the space range: the position before the step
    plus the shift of that pass, [nan] as velocity and the shift; the system
    is not written. *)
Theorem X20_monte_carlo_returns_first_in_range (fuel : nat)
  (rng : nat -> draws) (self : sampler) (sys sys' : system)
  (self' : sampler) (p sh : R) (v : number)
  (Hret : MonteCarlo.step fuel rng self sys = Returned sys' self' (p, v, sh)) :
  sys' = sys /\ v = NaN
  /\ exists j, (j < fuel)%nat
       /\ sh = shift_of self (rng j)
       /\ p = position (current_state sys) + sh
       /\ in_range self sys (rng j) = true
       /\ forall i, (i < j)%nat -> in_range self sys (rng i) = false.
Proof.
  unfold MonteCarlo.step in Hret.
  destruct (search _ _ _ _) as [self1|] eqn:Hs; [|discriminate].
  injection Hret as <- <- <- <- <-.
  apply search_some in Hs. destruct Hs as (j & Hj & H1 & H2 & H3 & H4).
  assert (Hshift : forall d,
            shift_of (with_oldpos self (position (current_state sys))) d
            = shift_of self d)
    by (intros d; apply random_shift_with_oldpos).
  rewrite Hshift in *. cbn [oldpos with_oldpos] in *.
  split; [reflexivity|]. split; [reflexivity|].
  exists j. unfold in_range. repeat split; try assumption; try lia.
  - rewrite H1. exact H2.
  - intros i Hi. specialize (H4 i ltac:(lia)). rewrite Hshift in H4.
    exact H4.
Qed.

(** X21: when pass [j] makes the first proposal in the space range, [step]
    of the plain Monte Carlo sampler returns it, given fuel for [j + 1]
    passes; without a space range that is the first draw. *)
Theorem X21_monte_carlo_finds_first_in_range (fuel j : nat)
  (rng : nat -> draws) (self : sampler) (sys : system)
  (Hbefore : forall i, (i < j)%nat -> in_range self sys (rng i) = false)
  (Hin : in_range self sys (rng j) = true)
  (Hfuel : (j < fuel)%nat) :
  exists self',
    MonteCarlo.step fuel rng self sys
    = Returned sys self'
        (position (current_state sys) + shift_of self (rng j), NaN,
         shift_of self (rng j)).
Proof.
  unfold MonteCarlo.step, in_range in *.
  set (self0 := with_oldpos self (position (current_state sys))).
  assert (Hshift : forall d, shift_of self0 d = shift_of self d)
    by (intros d; apply random_shift_with_oldpos).
  replace fuel with (j + S (fuel - j - 1))%nat by lia.
  destruct (search_skip rng j (S (fuel - j - 1)) 0 self0)
    as (self1 & -> & Ho & Hc & Hs).
  { intros i Hi. rewrite Hshift. apply Hbefore. lia. }
  cbn [Nat.add search].
  destruct (mc_propose_fields self1 (rng j)) as (H1 & H2 & H3 & H4 & H5).
  rewrite H4, H2, Hc, Ho, Hs, Hshift.
  change (_critInSpaceRange self0 (oldpos self0 + shift_of self (rng j)))
    with (_critInSpaceRange self
            (position (current_state sys) + shift_of self (rng j))).
  rewrite Hin, H1, H2, Ho, !Hs, !Hshift. eexists. reflexivity.
Qed.

(** X22: when no proposal ever lies in the space range, the loop of the
    plain Monte Carlo sampler has no other exit: [step] does not return,
    however many passes it is given. *)
Theorem X22_monte_carlo_unreachable_range_never_returns (fuel : nat)
  (rng : nat -> draws) (self : sampler) (sys : system)
  (Hnever : forall i, in_range self sys (rng i) = false) :
  MonteCarlo.step fuel rng self sys = OutOfFuel.
Proof.
  unfold MonteCarlo.step.
  destruct (search _ _ _ _) as [self1|] eqn:Hs; [|reflexivity].
  apply search_some in Hs. destruct Hs as (j & _ & _ & _ & Hin & _).
  unfold in_range in Hnever.
  rewrite (random_shift_in_range_oldpos self sys (rng j)) in Hin.
  rewrite Hnever in Hin. discriminate.
Qed.

End MonteCarloFacts.

(** The properties of the samplers on example runs. *)

Lemma X15_random_shift_witness :
  (2 <= Rabs (Metropolis.shift_of
                (Metropolis.__init__ None 5 (Some 2%R) (Some 1%R) 1.25
                   (Fin 10))
                (Metropolis.example_rng 0)))%R.
Proof.
  apply (X15_random_shift_respects_minimal_step
           (Metropolis.__init__ None 5 (Some 2%R) (Some 1%R) 1.25 (Fin 10))
           (Metropolis.example_rng 0) 2).
  - reflexivity.
  - lra.
Defined.

Lemma X16_random_shift_witness :
  Rabs (Metropolis.shift_of (Metropolis.example_sampler Inf Inf)
          (Metropolis.example_rng 0)) = Rabs 1.
Proof.
  apply (proj1 (X16_random_shift_policy_precedence
                  (Metropolis.example_sampler Inf Inf)
                  (Metropolis.example_rng 0) eq_refl) 1%R).
  reflexivity.
Defined.

Lemma X17_metropolis_witness :
  Metropolis.metropolis_criterion Metropolis.gas_constant_SI
    (Metropolis.example_sampler Inf Inf) 6
    (Metropolis.current_state Metropolis.example_system) 0.9 = false.
Proof.
  apply (X17_metropolis_rejects_uphill_above_one Metropolis.gas_constant_SI
           (Metropolis.example_sampler Inf Inf) 6
           (Metropolis.current_state Metropolis.example_system) 0.9).
  - unfold Metropolis.gas_constant_SI. lra.
  - cbn. lra.
  - cbn. lra.
  - cbn. lra.
Defined.

Lemma X18_metropolis_witness :
  exists j, (j < 3)%nat
    /\ Metropolis.shift_of (Metropolis.example_sampler (Fin 2) Inf)
         (Metropolis.example_rng 2)
       = Metropolis.shift_of (Metropolis.example_sampler (Fin 2) Inf)
           (Metropolis.example_rng j).
Proof.
  destruct (step_forced_acceptance Metropolis.gas_constant_SI
              Metropolis.example_rng
              (Metropolis.example_sampler (Fin 2) Inf)
              Metropolis.example_system 2 3 eq_refl I
              (fun j _ => example_rejected Metropolis.gas_constant_SI
                            (Fin 2) Inf j)
              ltac:(lia))
    as (sys' & self' & Hret & _).
  destruct (X18_metropolis_returns_accepted_or_forced
              Metropolis.gas_constant_SI 3 Metropolis.example_rng
              (Metropolis.example_sampler (Fin 2) Inf)
              Metropolis.example_system sys' self' _ _ _ eq_refl eq_refl
              Hret)
    as (_ & j & Hj & Hsh & _).
  exists j. split; assumption.
Defined.

Lemma X19_metropolis_witness :
  exists self',
    Metropolis.step Metropolis.gas_constant_SI 3 Metropolis.example_rng
      (Metropolis.example_sampler (Fin 2) (Fin (-1)))
      Metropolis.example_system
    = Metropolis.Returned Metropolis.example_system self'
        (Metropolis._currentPosition Metropolis.example_system,
         Metropolis.NaN,
         Metropolis.posShift (Metropolis.example_sampler (Fin 2) (Fin (-1)))).
Proof.
  apply (X19_metropolis_negative_limit_skips_loop
           Metropolis.gas_constant_SI 3 Metropolis.example_rng
           (Metropolis.example_sampler (Fin 2) (Fin (-1)))
           Metropolis.example_system).
  reflexivity.
Defined.

Lemma X20_monte_carlo_witness :
  Metropolis.example_system = Metropolis.example_system
  /\ Metropolis.NaN = Metropolis.NaN
  /\ exists j, (j < 1)%nat
       /\ (-1 * 1)%R
          = Metropolis.shift_of
              (Metropolis.__init__ None 5 None (Some 1%R) 1.25 Inf)
              (Metropolis.example_rng j)
       /\ (5 + -1 * 1)%R
          = (Metropolis.position
               (Metropolis.current_state Metropolis.example_system)
             + -1 * 1)%R
       /\ MonteCarlo.in_range
            (Metropolis.__init__ None 5 None (Some 1%R) 1.25 Inf)
            Metropolis.example_system (Metropolis.example_rng j) = true
       /\ forall i, (i < j)%nat ->
            MonteCarlo.in_range
              (Metropolis.__init__ None 5 None (Some 1%R) 1.25 Inf)
              Metropolis.example_system (Metropolis.example_rng i) = false.
Proof.
  eapply (X20_monte_carlo_returns_first_in_range 1 Metropolis.example_rng
            (Metropolis.__init__ None 5 None (Some 1%R) 1.25 Inf)
            Metropolis.example_system Metropolis.example_system _
            (5 + -1 * 1)%R (-1 * 1)%R Metropolis.NaN).
  reflexivity.
Defined.

Lemma X21_monte_carlo_witness :
  exists self',
    MonteCarlo.step 1 Metropolis.example_rng
      (Metropolis.__init__ None 5 None (Some 1%R) 1.25 Inf)
      Metropolis.example_system
    = Metropolis.Returned Metropolis.example_system self'
        ((Metropolis.position
            (Metropolis.current_state Metropolis.example_system)
          + Metropolis.shift_of
              (Metropolis.__init__ None 5 None (Some 1%R) 1.25 Inf)
              (Metropolis.example_rng 0))%R,
         Metropolis.NaN,
         Metropolis.shift_of
           (Metropolis.__init__ None 5 None (Some 1%R) 1.25 Inf)
           (Metropolis.example_rng 0)).
Proof.
  apply (X21_monte_carlo_finds_first_in_range 1 0 Metropolis.example_rng
           (Metropolis.__init__ None 5 None (Some 1%R) 1.25 Inf)
           Metropolis.example_system).
  - intros i Hi. lia.
  - reflexivity.
  - lia.
Defined.

(** Every proposal of the example run is outside its space range. *)
Lemma example_out_of_range (cap limit : bound) (i : nat) :
  MonteCarlo.in_range (Metropolis.example_sampler cap limit)
    Metropolis.example_system (Metropolis.example_rng i) = false.
Proof.
  unfold MonteCarlo.in_range, Metropolis.shift_of, Metropolis.random_shift.
  cbn.
  rewrite (Rleb_false (5 + -1 * 1) (Rmax 0 1)).
  - apply andb_false_r.
  - unfold Rmax. destruct (Rle_dec 0 1); lra.
Qed.

Lemma X22_monte_carlo_witness :
  MonteCarlo.step 1000 Metropolis.example_rng
    (Metropolis.example_sampler Inf Inf) Metropolis.example_system
  = Metropolis.OutOfFuel.
Proof.
  apply (X22_monte_carlo_unreachable_range_never_returns 1000
           Metropolis.example_rng (Metropolis.example_sampler Inf Inf)
           Metropolis.example_system).
  intros i. apply example_out_of_range.
Defined.

(** * Further properties of the Langevin samplers *)

Section LangevinMoreFacts.
Import Langevin.
Local Open Scope R_scope.

(** X23: for a time step and a mass other than zero, a denominator
    [1 + gamma dt / 2] other than zero and a non-negative argument
    [2 T gamma m / dt] of the square root, [step] of the position Langevin
    sampler returns: three values, the new position of the
    Bruenger-Brooks-Karplus formula, [None] as velocity and the force at the
    current position, or five under reweighting, with the random draw and
    the force of the original potential, which is [None] when the potential
    has no original potential.  It takes one normal draw and leaves the
    current position as the old position of the next call. *)
Theorem X23_position_langevin_step_returns (self : sampler) (sys : system)
  (g : random)
  (Hdt : dt self <> 0) (Hmass : mass sys <> 0)
  (Hden : 1 + gamma self * dt self / 2 <> 0)
  (Hsqrt : 0 <= 2 * temperature sys * gamma self * mass sys / dt self) :
  let cur := _currentPosition sys in
  let old := match _oldPosition self with
             | Some o => o
             | None => cur - _currentVelocities sys * dt self
             end in
  let R_x' := sqrt (2 * temperature sys * gamma self * mass sys / dt self)
              * normal g (taken g) in
  let new_position :=
    (1 / (1 + gamma self * dt self / 2))
    * (2 * cur - old + gamma self * (dt self / 2) * old
       + (dt self ^ 2 / mass sys) * (R_x' + - potential_force sys cur)) in
  exists self' g',
    langevinIntegrator_step self sys g
    = Ok (self', g',
          if reweighting sys
          then [Num new_position; NoneV;
                Num (- potential_force sys cur);
                Num (normal g (taken g));
                match origPotential_force sys with
                | Some force => Num (- force cur)
                | None => NoneV
                end]
          else [Num new_position; NoneV;
                Num (- potential_force sys cur)])
    /\ _oldPosition self' = Some cur
    /\ taken g' = S (taken g).
Proof.
  intros cur old R_x' new_position.
  unfold langevinIntegrator_step, step, update_positon. cbn.
  destruct (reweighting sys); eexists _, _; repeat split.
Qed.

(** X24: without friction ([gamma = 0]) the position Langevin step is the
    Verlet step [2 x - x_old + dt^2 / m * F(x)], whatever the temperature
    and the random draw are (for a time step and a mass other than zero). *)
Theorem X24_position_langevin_without_friction (self : sampler)
  (sys : system) (g : random) (Hgamma : gamma self = 0)
  (Hdt : dt self <> 0) (Hmass : mass sys <> 0) :
  let old := match _oldPosition self with
             | Some o => o
             | None => _currentPosition sys - _currentVelocities sys * dt self
             end in
  exists self' g' new_position rest,
    langevinIntegrator_step self sys g
    = Ok (self', g', Num new_position :: rest)
    /\ new_position
       = 2 * _currentPosition sys - old
         + dt self ^ 2 / mass sys
           * - potential_force sys (_currentPosition sys).
Proof.
  intros old. unfold langevinIntegrator_step, step, update_positon. cbn.
  destruct (reweighting sys); eexists _, _, _, _; (split; [reflexivity|]);
    fold old; rewrite Hgamma;
    replace (2 * temperature sys * 0 * mass sys / dt self) with 0
      by (unfold Rdiv; ring);
    rewrite sqrt_0; unfold Rdiv; rewrite !Rmult_0_l, Rplus_0_r, Rinv_1;
    ring.
Qed.

(** X25: the first position Langevin step of a particle at rest, at zero
    temperature and at a position where the force vanishes, leaves the
    particle where it is. *)
Theorem X25_position_langevin_rest_is_fixed (self : sampler) (sys : system)
  (g : random)
  (Hold : _oldPosition self = None)
  (Hvel : _currentVelocities sys = 0)
  (Htemp : temperature sys = 0)
  (Hforce : potential_force sys (_currentPosition sys) = 0)
  (Hdt : dt self <> 0) (Hmass : mass sys <> 0)
  (Hden : 1 + gamma self * dt self / 2 <> 0) :
  exists self' g' new_position rest,
    langevinIntegrator_step self sys g
    = Ok (self', g', Num new_position :: rest)
    /\ new_position = _currentPosition sys.
Proof.
  unfold langevinIntegrator_step, step, update_positon. cbn.
  rewrite Hold.
  destruct (reweighting sys); eexists _, _, _, _; (split; [reflexivity|]);
    rewrite Hvel, Htemp, Hforce;
    replace (2 * 0 * gamma self * mass sys / dt self) with 0
      by (unfold Rdiv; ring);
    rewrite sqrt_0; field;
    (split; [exact Hmass|intros E; apply Hden; lra]).
Qed.

(** X26: for a time step and a mass other than zero, a denominator
    [1 + gamma dt / 2] other than zero and a non-negative argument
    [2 T gamma m / dt] of the square root, [update_positon] of the velocity
    Langevin sampler, on a sampler that holds the current position and
    velocity and, after its first step, the force and the random force of
    the step before, returns a position and a velocity.  It takes two normal
    draws on the first step and one afterwards, and leaves the sampler ready
    for the next call: [_first_step] is off and the force at the new
    position and the new random force are stored. *)
Theorem X26_velocity_update_keeps_carried_state (self : sampler)
  (sys : system) (g : random) (cur vel : R)
  (Hdt : dt self <> 0) (Hmass : mass sys <> 0)
  (Hden : 1 + gamma self * dt self / 2 <> 0)
  (Hsqrt : 0 <= 2 * temperature sys * gamma self * mass sys / dt self)
  (Hcur : currentPosition self = Some cur)
  (Hvel : currentVelocity self = Some vel)
  (Hcarried : _first_step self = false ->
              exists rx f, R_x self = Some rx /\ newForces self = Some f) :
  exists self' g' full_step_position full_step_velocity rx f,
    velocity_update_positon self sys g
    = Ok (self', g', [Num full_step_position; Num full_step_velocity])
    /\ _first_step self' = false
    /\ R_x self' = Some rx /\ newForces self' = Some f
    /\ f = - potential_force sys full_step_position
    /\ rx = sqrt (2 * temperature sys * gamma self * mass sys / dt self)
            * normal g (taken g + if _first_step self then 1 else 0)%nat
    /\ currentPosition self' = Some cur
    /\ currentVelocity self' = Some vel
    /\ taken g' = (taken g + if _first_step self then 2 else 1)%nat.
Proof.
  unfold velocity_update_positon, first_step_draw.
  destruct (_first_step self) eqn:Hfirst.
  - cbn. rewrite Hcur. cbn. rewrite Hvel. cbn.
    eexists _, _, _, _, _, _. repeat split; try assumption.
    + replace (taken g + 1)%nat with (S (taken g)) by lia. reflexivity.
    + cbn. lia.
  - destruct (Hcarried eq_refl) as (rx & f & Hrx & Hf).
    cbn. rewrite Hvel. cbn. rewrite Hf. cbn. rewrite Hrx. cbn.
    rewrite Hcur. cbn.
    eexists _, _, _, _, _, _. repeat split; try assumption.
    + replace (taken g + 0)%nat with (taken g) by lia. reflexivity.
    + cbn. lia.
Qed.

(** X27: at zero temperature and without forces the first velocity
    Langevin update only damps the velocity: the new velocity is
    [(1 - gamma dt / 2) / (1 + gamma dt / 2)] times the old one and the
    position moves by the half-step velocity times [dt], whatever the random
    draws are. *)
Theorem X27_velocity_update_free_particle (self : sampler) (sys : system)
  (g : random) (cur vel : R)
  (Hcur : currentPosition self = Some cur)
  (Hvel : currentVelocity self = Some vel)
  (Hfirst : _first_step self = true)
  (Htemp : temperature sys = 0)
  (Hforce : forall x, potential_force sys x = 0)
  (Hdt : dt self <> 0) (Hmass : mass sys <> 0)
  (Hden : 1 + gamma self * dt self / 2 <> 0) :
  exists self' g' full_step_position full_step_velocity,
    velocity_update_positon self sys g
    = Ok (self', g', [Num full_step_position; Num full_step_velocity])
    /\ full_step_position
       = cur + (1 - gamma self * dt self / 2) * vel * dt self
    /\ full_step_velocity
       = 1 / (1 + gamma self * dt self / 2)
         * ((1 - gamma self * dt self / 2) * vel).
Proof.
  unfold velocity_update_positon, first_step_draw.
  rewrite Hfirst. cbn. rewrite Hcur. cbn. rewrite Hvel. cbn.
  eexists _, _, _, _. split; [reflexivity|].
  rewrite !Hforce, Htemp.
  replace (2 * 0 * gamma self * mass sys / dt self) with 0
    by (unfold Rdiv; ring).
  rewrite sqrt_0. split; ring.
Qed.

End LangevinMoreFacts.

Lemma X23_position_langevin_witness :
  exists self' g',
    Langevin.langevinIntegrator_step (Langevin.__init__ 0.005 50 None)
      (Langevin.mkSystem 1 0 298 1 (fun r => r) true None)
      (Langevin.mkRandom (fun _ => 1%R) 0)
    = Ok (self', g',
          [Langevin.Num
             (1 / (1 + 50 * 0.005 / 2)
              * (2 * 1 - (1 - 0 * 0.005) + 50 * (0.005 / 2) * (1 - 0 * 0.005)
                 + 0.005 ^ 2 / 1
                   * (sqrt (2 * 298 * 50 * 1 / 0.005) * 1 + - 1)))%R;
           Langevin.NoneV; Langevin.Num (- 1)%R; Langevin.Num 1%R;
           Langevin.NoneV])
    /\ Langevin._oldPosition self' = Some 1%R
    /\ Langevin.taken g' = 1%nat.
Proof.
  apply (X23_position_langevin_step_returns
           (Langevin.__init__ 0.005 50 None)
           (Langevin.mkSystem 1 0 298 1 (fun r => r) true None)
           (Langevin.mkRandom (fun _ => 1%R) 0)).
  - cbn. lra.
  - cbn. lra.
  - cbn. lra.
  - cbn. lra.
Defined.

Lemma X24_position_langevin_witness :
  exists self' g' new_position rest,
    Langevin.langevinIntegrator_step (Langevin.__init__ 0.005 0 None)
      (Langevin.mkSystem 1 0 298 1 (fun r => r) false None)
      (Langevin.mkRandom (fun _ => 1%R) 0)
    = Ok (self', g', Langevin.Num new_position :: rest)
    /\ new_position
       = (2 * 1 - (1 - 0 * 0.005) + 0.005 ^ 2 / 1 * - 1)%R.
Proof.
  apply (X24_position_langevin_without_friction
           (Langevin.__init__ 0.005 0 None)
           (Langevin.mkSystem 1 0 298 1 (fun r => r) false None)
           (Langevin.mkRandom (fun _ => 1%R) 0)).
  - reflexivity.
  - cbn. lra.
  - cbn. lra.
Defined.

Lemma X25_position_langevin_witness :
  exists self' g' new_position rest,
    Langevin.langevinIntegrator_step (Langevin.__init__ 0.005 50 None)
      (Langevin.mkSystem 0 0 0 1 (fun r => r) false None)
      (Langevin.mkRandom (fun _ => 1%R) 0)
    = Ok (self', g', Langevin.Num new_position :: rest)
    /\ new_position = 0%R.
Proof.
  apply (X25_position_langevin_rest_is_fixed
           (Langevin.__init__ 0.005 50 None)
           (Langevin.mkSystem 0 0 0 1 (fun r => r) false None)
           (Langevin.mkRandom (fun _ => 1%R) 0)).
  - reflexivity.
  - reflexivity.
  - reflexivity.
  - reflexivity.
  - cbn. lra.
  - cbn. lra.
  - cbn. lra.
Defined.

Lemma X26_velocity_update_witness :
  exists self' g' full_step_position full_step_velocity rx f,
    Langevin.velocity_update_positon
      (Langevin.mkSampler 0.005 50 None true None None (Some 0%R)
         (Some 1%R))
      (Langevin.mkSystem 0 1 298 1 (fun r => r) false None)
      (Langevin.mkRandom (fun _ => 1%R) 0)
    = Ok (self', g',
          [Langevin.Num full_step_position;
           Langevin.Num full_step_velocity])
    /\ Langevin._first_step self' = false
    /\ Langevin.R_x self' = Some rx /\ Langevin.newForces self' = Some f
    /\ f = (- full_step_position)%R
    /\ rx = (sqrt (2 * 298 * 50 * 1 / 0.005) * 1)%R
    /\ Langevin.currentPosition self' = Some 0%R
    /\ Langevin.currentVelocity self' = Some 1%R
    /\ Langevin.taken g' = 2%nat.
Proof.
  apply (X26_velocity_update_keeps_carried_state
           (Langevin.mkSampler 0.005 50 None true None None (Some 0%R)
              (Some 1%R))
           (Langevin.mkSystem 0 1 298 1 (fun r => r) false None)
           (Langevin.mkRandom (fun _ => 1%R) 0) 0 1).
  - cbn. lra.
  - cbn. lra.
  - cbn. lra.
  - cbn. lra.
  - reflexivity.
  - reflexivity.
  - intros H. discriminate H.
Defined.

Lemma X27_velocity_update_witness :
  exists self' g' full_step_position full_step_velocity,
    Langevin.velocity_update_positon
      (Langevin.mkSampler 0.005 50 None true None None (Some 0%R)
         (Some 1%R))
      (Langevin.mkSystem 0 1 0 1 (fun _ => 0%R) false None)
      (Langevin.mkRandom (fun _ => 1%R) 0)
    = Ok (self', g',
          [Langevin.Num full_step_position;
           Langevin.Num full_step_velocity])
    /\ full_step_position = (0 + (1 - 50 * 0.005 / 2) * 1 * 0.005)%R
    /\ full_step_velocity
       = (1 / (1 + 50 * 0.005 / 2) * ((1 - 50 * 0.005 / 2) * 1))%R.
Proof.
  apply (X27_velocity_update_free_particle
           (Langevin.mkSampler 0.005 50 None true None None (Some 0%R)
              (Some 1%R))
           (Langevin.mkSystem 0 1 0 1 (fun _ => 0%R) false None)
           (Langevin.mkRandom (fun _ => 1%R) 0) 0 1).
  - reflexivity.
  - reflexivity.
  - reflexivity.
  - reflexivity.
  - intros x. reflexivity.
  - cbn. lra.
  - cbn. lra.
  - cbn. lra.
Defined.

(** * Further properties of the EDS system *)

Section EdsTrajectoryFacts.
Import EdsSystem EdsTrajectory.
Local Open Scope R_scope.

Variable gas_constant : R.
Variable kinetic_energy : R -> R -> R.

(** The row that [append_state] appends. *)
Lemma append_state_row (self : system)
  (newPosition newVelocity newForces newS : R) (newEoff : list R) :
  let self' := append_state gas_constant kinetic_energy self newPosition
                 newVelocity newForces newS newEoff in
  exists row,
    trajectory self' = trajectory self ++ [row]
    /\ currentState self' = Some row
    /\ position row = newPosition /\ velocity row = newVelocity
    /\ dhdpos row = newForces /\ s row = newS /\ Eoff row = newEoff
    /\ temperature row = _currentTemperature self
    /\ totPotEnergy row
       = ExpCoupled.ene gas_constant (potential (base self)) newPosition
    /\ totEnergy row = totPotEnergy row + totKinEnergy row
    /\ potential (base self') = potential (base self)
    /\ _currentTemperature self' = _currentTemperature self.
Proof. cbn. eexists. repeat split. Qed.

(** X28: [append_state] adds exactly one row at the end of the trajectory
    and keeps the rows before it; the new row is the current state, it
    holds the arguments of the call, and its energies are the refreshed
    aggregate energies, the potential energy being that of the potential at
    the new position. *)
Theorem X28_append_state_extends_trajectory (self : system)
  (newPosition newVelocity newForces newS : R) (newEoff : list R) :
  let self' := append_state gas_constant kinetic_energy self newPosition
                 newVelocity newForces newS newEoff in
  exists row,
    trajectory self' = trajectory self ++ [row]
    /\ currentState self' = Some row
    /\ last (trajectory self') row = row
    /\ position row = newPosition /\ velocity row = newVelocity
    /\ dhdpos row = newForces /\ s row = newS /\ Eoff row = newEoff
    /\ temperature row = _currentTemperature self
    /\ totPotEnergy row
       = ExpCoupled.ene gas_constant (potential (base self)) newPosition
    /\ totEnergy row = totPotEnergy row + totKinEnergy row.
Proof.
  intros self'.
  destruct (append_state_row self newPosition newVelocity newForces newS
              newEoff)
    as (row & Ht & Hc & Hrest).
  fold self' in Ht, Hc. exists row.
  split; [exact Ht|]. split; [exact Hc|].
  split; [rewrite Ht; apply last_last|].
  tauto.
Qed.

(** X29: the trajectory is append-only and in time order: after any
    sequence of appended steps it consists of the rows it had, followed by
    one row per step, in the order of the steps, each holding the position
    and the [s] of its step; the last row is the current state. *)
Theorem X29_trajectory_is_append_only
  (steps : list (R * R * R * R * list R)) :
  forall self : system,
    let self' := append_states gas_constant kinetic_energy self steps in
    exists rows,
      trajectory self' = trajectory self ++ rows
      /\ List.length rows = List.length steps
      /\ map position rows
         = map (fun st => fst (fst (fst (fst st)))) steps
      /\ map s rows = map (fun st => snd (fst st)) steps
      /\ (steps <> [] -> currentState self' = Some (last rows
            (mkState 0 0 0 0 0 0 0 0 []))).
Proof.
  induction steps as [|[[[[p v] f] s0] e] rest IH]; intros self self'.
  - exists []. cbn. rewrite app_nil_r. repeat split. congruence.
  - unfold self'. cbn [append_states].
    destruct (IH (append_state gas_constant kinetic_energy self p v f s0 e))
      as (rows & Ht & Hl & Hm & Hs & Hlast).
    destruct (append_state_row self p v f s0 e)
      as (row & Hrow & Hcur & Hpos & _ & _ & Hs0 & _).
    exists (row :: rows). rewrite Ht, Hrow, <- app_assoc.
    cbn [map List.length app fst snd].
    rewrite Hl, Hm, Hs, Hpos, Hs0. repeat split.
    intros _. destruct rest as [|st rest'].
    + cbn in Hl. destruct rows; [|discriminate]. cbn. exact Hcur.
    + rewrite Hlast by discriminate.
      destruct rows as [|r0 rows']; [discriminate|]. reflexivity.
Qed.

(** X30: [set_current_state] stores [s] and the offsets in the system and
    in the current state only: the trajectory gets no row and the potential
    keeps its constants and its evaluators, so the potential energy of the
    new current state is computed with the [s] the potential had. *)
Theorem X30_set_current_state_bypasses_potential (self : system)
  (currentPosition currentVelocities currentForce current_s : R)
  (current_Eoff : list R) (currentTemperature : R) :
  let self' := set_current_state gas_constant kinetic_energy self
                 currentPosition currentVelocities currentForce current_s
                 current_Eoff currentTemperature in
  trajectory self' = trajectory self
  /\ potential (base self') = potential (base self)
  /\ _currentEdsS (base self') = current_s
  /\ _currentEdsEoffs (base self') = current_Eoff
  /\ exists row,
       currentState self' = Some row
       /\ s row = current_s /\ Eoff row = current_Eoff
       /\ temperature row = currentTemperature
       /\ totPotEnergy row
          = ExpCoupled.V_functional gas_constant
              (ExpCoupled.compiled (potential (base self))) currentPosition.
Proof. cbn. repeat split. eexists. repeat split. Qed.

End EdsTrajectoryFacts.
